(** * Gaussian-process likelihoods: a shallow embedding of [include/Likelihood.h]

    The header defines the abstract class [Likelihood<TScalarType>] and its two
    implementations [GaussianLikelihood] (the plain marginal likelihood) and
    [GaussianLogLikelihood] (its logarithm, with derivatives).  This file
    transcribes the three classes into Rocq and states the properties of the
    specification over the transcription.

    Arithmetic.  The scalars of the program are IEEE floating-point numbers
    ([TScalarType], and [long double] for [HighPrecisionType]).  They are
    modelled by [fp]: a real number or one of the three exceptional values
    +Inf, -Inf and NaN.  Finite values are computed exactly (no rounding, no
    overflow, no underflow, a single zero), exceptional values follow the
    IEEE rules, so that the tests of the program ([<], [<=], [std::isinf])
    take the branch they take in C++.  Both scalar types are modelled by
    [fp]; the conversions between them are the identity.

    In the program a product or a sum of finite values can overflow to an
    infinity, [std::exp] can underflow to 0, [std::pow(2*M_PI, n/2.0)] is
    +Inf from n = 773, and a [long double] may not fit [TScalarType].  The
    theorems of this file are stated so that they do not rest on the results
    of these computations being finite: they are on the branches taken, on
    the exceptions thrown, on the expressions computed and on the sign and
    the order of values; where a theorem is on the real values of results,
    that these results are real numbers is one of its hypotheses.  The lemmas
    that evaluate the model on real inputs serve the concrete scenarios,
    whose values are small. *)

From Stdlib Require Import Reals Lra Lia List String NArith ZArith Bool.
Import ListNotations.
Local Open Scope R_scope.

(** ** Scalars *)

Definition Rltb (x y : R) : bool := if Rlt_dec x y then true else false.
Definition Rleb (x y : R) : bool := if Rle_dec x y then true else false.
Definition Reqb (x y : R) : bool := if Req_dec_T x y then true else false.

Inductive fp : Type :=
| Fin (r : R)
| PInf
| NInf
| NaN.

Definition inf_of_sign (negative : bool) : fp :=
  if negative then NInf else PInf.

Definition fneg (a : fp) : fp :=
  match a with
  | Fin x => Fin (- x)
  | PInf => NInf
  | NInf => PInf
  | NaN => NaN
  end.

Definition fadd (a b : fp) : fp :=
  match a, b with
  | NaN, _ | _, NaN => NaN
  | Fin x, Fin y => Fin (x + y)
  | PInf, NInf | NInf, PInf => NaN
  | PInf, _ | _, PInf => PInf
  | NInf, _ | _, NInf => NInf
  end.

Definition fsub (a b : fp) : fp := fadd a (fneg b).

Definition fmul (a b : fp) : fp :=
  match a, b with
  | NaN, _ | _, NaN => NaN
  | Fin x, Fin y => Fin (x * y)
  | Fin x, PInf | PInf, Fin x =>
      if Reqb x 0 then NaN else inf_of_sign (Rltb x 0)
  | Fin x, NInf | NInf, Fin x =>
      if Reqb x 0 then NaN else inf_of_sign (negb (Rltb x 0))
  | PInf, PInf | NInf, NInf => PInf
  | PInf, NInf | NInf, PInf => NInf
  end.

(** Division; the single zero of the model divides like +0. *)
Definition fdiv (a b : fp) : fp :=
  match a, b with
  | NaN, _ | _, NaN => NaN
  | Fin x, Fin y =>
      if Reqb y 0
      then (if Reqb x 0 then NaN else inf_of_sign (Rltb x 0))
      else Fin (x / y)
  | Fin _, (PInf | NInf) => Fin 0
  | PInf, Fin y => inf_of_sign (Rltb y 0)
  | NInf, Fin y => inf_of_sign (negb (Rltb y 0))
  | _, _ => NaN
  end.

(** [std::exp], [std::log], [std::sqrt]. *)
Definition fexp (a : fp) : fp :=
  match a with
  | Fin x => Fin (exp x)
  | PInf => PInf
  | NInf => Fin 0
  | NaN => NaN
  end.

Definition flog (a : fp) : fp :=
  match a with
  | Fin x => if Rltb 0 x then Fin (ln x) else if Reqb x 0 then NInf else NaN
  | PInf => PInf
  | NInf => NaN
  | NaN => NaN
  end.

Definition fsqrt (a : fp) : fp :=
  match a with
  | Fin x => if Rleb 0 x then Fin (sqrt x) else NaN
  | PInf => PInf
  | NInf => NaN
  | NaN => NaN
  end.

(** [std::pow].  The header raises only the positive constant [2*M_PI] to a
    power; the cases of a positive finite base are those of the C library, a
    base that is not positive and finite is kept to the two rules that do not
    depend on it ([pow(x, 0) = 1], otherwise NaN here). *)
Definition fpow (a b : fp) : fp :=
  match a, b with
  | Fin x, Fin y =>
      if Rltb 0 x then Fin (Rpower x y)
      else if Reqb y 0 then Fin 1 else NaN
  | Fin x, PInf =>
      if Rltb 1 x then PInf
      else if Reqb x 1 then Fin 1
      else if Rltb 0 x then Fin 0 else NaN
  | Fin x, NInf =>
      if Rltb 1 x then Fin 0
      else if Reqb x 1 then Fin 1
      else if Rltb 0 x then PInf else NaN
  | Fin x, NaN => if Reqb x 1 then Fin 1 else NaN
  | _, Fin y => if Reqb y 0 then Fin 1 else NaN
  | _, _ => NaN
  end.

(** Comparisons: every comparison with NaN is false, except [!=]. *)
Definition fltb (a b : fp) : bool :=
  match a, b with
  | NaN, _ | _, NaN => false
  | Fin x, Fin y => Rltb x y
  | NInf, (Fin _ | PInf) => true
  | Fin _, PInf => true
  | _, _ => false
  end.

Definition fleb (a b : fp) : bool :=
  match a, b with
  | NaN, _ | _, NaN => false
  | Fin x, Fin y => Rleb x y
  | NInf, _ => true
  | _, PInf => true
  | _, _ => false
  end.

Definition fneb (a b : fp) : bool :=
  match a, b with
  | Fin x, Fin y => negb (Reqb x y)
  | PInf, PInf | NInf, NInf => false
  | _, _ => true
  end.

(** [std::isinf] and [std::isnan]. *)
Definition isinf (a : fp) : bool :=
  match a with
  | PInf | NInf => true
  | _ => false
  end.

Definition isnan (a : fp) : bool :=
  match a with
  | NaN => true
  | _ => false
  end.

Definition finite (a : fp) : Prop := exists r, a = Fin r.

(** Conversion of an index ([Eigen::Index], [unsigned]) to a scalar. *)
Definition of_Z (z : Z) : fp := Fin (IZR z).
Definition of_N (n : N) : fp := of_Z (Z.of_N n).

(** [M_PI] *)
Definition M_PI : fp := Fin PI.

(** [std::numeric_limits<HighPrecisionType>]: [epsilon()], [min()] (the
    smallest positive normal value) and [max()].  They depend on the platform's
    [long double] and are a parameter of the development. *)
Module numeric_limits.
Class t : Type := { epsilon : R; min : R; max : R }.

(** What holds of the limits of every binary floating-point format. *)
Definition wf (l : t) : Prop :=
  0 < @min l /\ @min l < @epsilon l /\ @epsilon l < 1 /\ 1 < @max l.
End numeric_limits.

(** The 80-bit extended format of x86 ([long double] with gcc and clang on
    x86-64): a 64-bit significand and a 15-bit exponent. *)
Definition x87_epsilon : R := powerRZ 2 (-63).
Definition x87_min : R := powerRZ 2 (-16382).
Definition x87_max : R := (2 - powerRZ 2 (-63)) * powerRZ 2 16383.

Definition x87 : numeric_limits.t :=
  {| numeric_limits.epsilon := x87_epsilon;
     numeric_limits.min := x87_min;
     numeric_limits.max := x87_max |}.

(** ** Outcomes of a call

    A member function returns a value, throws (every [throw] of the header
    throws a [std::string]), or leaves defined behaviour ([Undefined]): a
    failed [eigen_assert] on the shapes of an Eigen expression, or an integer
    division by zero. *)

(** The line written to [std::cout] before "likelihood is infinite" is
    thrown. *)
Record diagnostics : Type :=
  { diag_df : list fp; diag_cp : fp; diag_ct : fp; diag_determinant : fp }.

Inductive exception : Type :=
| Str (what : string)                 (* throw std::string(what) *)
| StrValue (what : string) (v : fp).  (* ss << what << v; throw ss.str() *)

Inductive outcome (A : Type) : Type :=
| Return (a : A)
| Throw (printed : list diagnostics) (e : exception)
| Undefined.

Arguments Return {A} a.
Arguments Throw {A} printed e.
Arguments Undefined {A}.

Definition bind {A B : Type} (c : outcome A) (k : A -> outcome B) : outcome B :=
  match c with
  | Return a => k a
  | Throw out e => Throw out e
  | Undefined => Undefined
  end.

Notation "x <- c ;; k" := (bind c (fun x => k))
  (at level 61, c at next level, right associativity).

(** The [for (unsigned i = 0; i < n; i++)] loops of the header, over a state.
    Their bounds are below 2^32, where the counter would wrap: [num_params]
    is an [unsigned], and the two other bounds are the column count t of Y,
    for which the t x t matrix [Y' * C * Y] has been computed. *)
Definition iota (n : N) : list N := map N.of_nat (seq 0 (N.to_nat n)).

Fixpoint for_each {S : Type} (l : list N) (body : N -> S -> outcome S) (s : S)
  : outcome S :=
  match l with
  | [] => Return s
  | i :: l' => s' <- body i s ;; for_each l' body s'
  end.

Definition for_loop {S : Type} (n : N) (body : N -> S -> outcome S) (s : S)
  : outcome S :=
  for_each (iota n) body s.

(** The messages of the header, and the error kinds the specification gives
    them. *)
Definition not_implemented (operation : string) : exception :=
  Str ("Likelihood: " ++ operation ++ " is not implemented.")%string.

Definition determinant_negative (d : fp) : exception :=
  StrValue "GaussianLikelihood: determinant of K is smaller than zero: " d.

Definition likelihood_infinite : exception :=
  Str "GaussianLogLikelihood::GetValueAndParameterDerivatives: likelihood is infinite.".

Definition wrong_dimension : exception :=
  Str "GaussianLogLikelihood: wrong dimension of derivative kernel matrix.".

Inductive error_kind : Type :=
| NotImplemented (operation : string)
| NumericalError
| DimensionError.

Inductive has_kind : exception -> error_kind -> Prop :=
| kind_not_implemented op : has_kind (not_implemented op) (NotImplemented op)
| kind_determinant d : has_kind (determinant_negative d) NumericalError
| kind_infinite : has_kind likelihood_infinite NumericalError
| kind_dimension : has_kind wrong_dimension DimensionError.

(** [fails_with c k]: the call throws, and what it throws is of kind [k]. *)
Definition fails_with {A : Type} (c : outcome A) (k : error_kind) : Prop :=
  exists out e, c = Throw out e /\ has_kind e k.

(** ** The Eigen expressions the header uses

    A dense matrix is its two dimensions and its coefficients.  The products,
    differences and blocks of Eigen assert that the shapes fit. *)
Module Eigen.

Record MatrixType : Type :=
  Matrix { rows : N; cols : N; coeff : N -> N -> fp }.

Definition VectorType : Type := list fp.

(** Sum of [f 0 .. f (n-1)]; 0 when there is none. *)
Definition sum_to (n : N) (f : N -> fp) : fp :=
  fold_left fadd (map f (iota n)) (Fin 0).

Definition adjoint (m : MatrixType) : MatrixType :=
  Matrix (cols m) (rows m) (fun i j => coeff m j i).

Definition product (a b : MatrixType) : outcome MatrixType :=
  if (cols a =? rows b)%N
  then Return (Matrix (rows a) (cols b)
                 (fun i j => sum_to (cols a)
                               (fun k => fmul (coeff a i k) (coeff b k j))))
  else Undefined.

Definition difference (a b : MatrixType) : outcome MatrixType :=
  if ((rows a =? rows b) && (cols a =? cols b))%N
  then Return (Matrix (rows a) (cols a)
                 (fun i j => fsub (coeff a i j) (coeff b i j)))
  else Undefined.

Definition scale (s : fp) (m : MatrixType) : MatrixType :=
  Matrix (rows m) (cols m) (fun i j => fmul s (coeff m i j)).

(** [m.block(i, j, p, q)] *)
Definition block (m : MatrixType) (i j p q : N) : outcome MatrixType :=
  if ((i + p <=? rows m) && (j + q <=? cols m))%N
  then Return (Matrix p q (fun a b => coeff m (i + a) (j + b))%N)
  else Undefined.

(** [m.col(j)] *)
Definition col (m : MatrixType) (j : N) : outcome MatrixType :=
  if (j <? cols m)%N
  then Return (Matrix (rows m) 1 (fun a _ => coeff m a j))
  else Undefined.

Definition trace (m : MatrixType) : fp :=
  sum_to (N.min (rows m) (cols m)) (fun i => coeff m i i).

(** [MatrixType::Zero(r, c)] and [VectorType::Zero(n)] *)
Definition Zero (r c : N) : MatrixType := Matrix r c (fun _ _ => Fin 0).
Definition VectorZero (n : N) : VectorType := repeat (Fin 0) (N.to_nat n).

(** [m(i, j) = v] *)
Definition set_coeff (m : MatrixType) (i j : N) (v : fp) : MatrixType :=
  Matrix (rows m) (cols m)
    (fun a b => if ((a =? i) && (b =? j))%N then v else coeff m a b).

(** [v[i] = x] *)
Fixpoint set_nth (v : VectorType) (i : nat) (x : fp) : VectorType :=
  match v, i with
  | [], _ => []
  | _ :: t, O => x :: t
  | h :: t, S k => h :: set_nth t k x
  end.

Definition set_at (v : VectorType) (i : N) (x : fp) : VectorType :=
  set_nth v (N.to_nat i) x.

(** [v.array().sum()] *)
Definition sum (v : VectorType) : fp := fold_left fadd v (Fin 0).

(** Modelled from the spec: the declarations of [VectorType] and
    [MatrixType] are in GaussianProcess.h, which is not part of the header.
    The header assigns the t x t matrix [-0.5 * (Y' * C * Y)] to a
    [VectorType]; the specification (4.2, 4.3) reads the result as one value
    per output column, the diagonal of the matrix. *)
Definition diagonal (m : MatrixType) : VectorType :=
  map (fun i => coeff m i i) (iota (rows m)).

(** The rows of a matrix, to compare results. *)
Definition to_rows (m : MatrixType) : list (list fp) :=
  map (fun i => map (fun j => coeff m i j) (iota (cols m))) (iota (rows m)).

End Eigen.
Import Eigen.

(** ** The Gaussian process, as the likelihoods see it *)

(** Modelled from the spec: class [GaussianProcess] is not part of the header
    (its include is commented out).  The specification (section 6) gives the
    four read operations the likelihoods call: [ComputeLabelMatrix],
    [ComputeCoreMatrixWithDeterminant], [ComputeDerivativeKernelMatrix] and
    [GetSigma]. *)
Record GaussianProcess : Type :=
  { ComputeLabelMatrix : MatrixType;
    ComputeCoreMatrixWithDeterminant : MatrixType * fp;
    ComputeDerivativeKernelMatrix : MatrixType;
    GaussianProcess_GetSigma : fp }.

(** ** class Likelihood

    The four operations throw unless a subclass overrides them; [ToString] is
    pure virtual.  The protected members forward to the Gaussian process. *)
Module Likelihood.

Definition operator (gp : GaussianProcess) : outcome VectorType :=
  Throw [] (Str "Likelihood: operator() is not implemented.").

Definition GetParameterDerivatives (gp : GaussianProcess)
  : outcome VectorType :=
  Throw [] (Str "Likelihood: GetParameterDerivatives is not implemented.").

Definition GetValueAndParameterDerivatives (gp : GaussianProcess)
  : outcome (VectorType * VectorType) :=
  Throw []
    (Str "Likelihood: GetValueAndParameterDerivatives is not implemented.").

Definition GetValueAndJacobian (gp : GaussianProcess)
  : outcome (VectorType * MatrixType) :=
  Throw [] (Str "Likelihood: GetValueAndJacobian is not implemented.").

Definition GetLabelMatrix (gp : GaussianProcess) : MatrixType :=
  ComputeLabelMatrix gp.

(** Fills [C] and returns the determinant. *)
Definition GetCoreMatrix (gp : GaussianProcess) : MatrixType * fp :=
  ComputeCoreMatrixWithDeterminant gp.

Definition GetDerivativeKernelMatrix (gp : GaussianProcess) : MatrixType :=
  ComputeDerivativeKernelMatrix gp.

Definition GetSigma (gp : GaussianProcess) : fp :=
  GaussianProcess_GetSigma gp.

End Likelihood.

(** [D.rows()/D.cols()] on [Eigen::Index]: integer division, undefined for a
    zero divisor; and [static_cast<unsigned>], 32 bits wide. *)
Definition index_div (a b : N) : outcome N :=
  if (b =? 0)%N then Undefined else Return (a / b)%N.

Definition static_cast_unsigned (a : N) : N := (a mod 2 ^ 32)%N.

(** ** class GaussianLikelihood *)
Module GaussianLikelihood.
Import Likelihood.

Definition operator `{numeric_limits.t} (gp : GaussianProcess)
  : outcome VectorType :=
  let Y := GetLabelMatrix gp in
  let (C, determinant) := GetCoreMatrix gp in
  (* data fit *)
  YC <- product (adjoint Y) C ;;
  YCY <- product YC Y ;;
  let df := diagonal (scale (Fin (-0.5)) YCY) in
  df <- for_loop (N.of_nat (List.length df))
          (fun i df =>
             Return (set_at df i (fexp (nth (N.to_nat i) df (Fin 0))))) df ;;
  (* complexity penalty *)
  if fltb determinant (fneg (Fin numeric_limits.epsilon)) then
    Throw []
      (StrValue "GaussianLikelihood: determinant of K is smaller than zero: "
         determinant)
  else
    let cp :=
      if fleb determinant (Fin 0)
      then fdiv (Fin 1.0) (fsqrt (Fin numeric_limits.min))
      else fdiv (Fin 1.0) (fsqrt determinant) in
    (* constant term *)
    let ct :=
      fdiv (Fin 1.0)
        (fpow (fmul (Fin 2) M_PI) (fdiv (of_N (rows C)) (Fin 2.0))) in
    Return (map (fun x => fmul (fmul x cp) ct) df).

Definition ToString : string := "GaussianLikelihood".

End GaussianLikelihood.

(** ** class GaussianLogLikelihood *)
Module GaussianLogLikelihood.
Import Likelihood.

Definition operator `{numeric_limits.t} (gp : GaussianProcess)
  : outcome VectorType :=
  let Y := GetLabelMatrix gp in
  let (C, determinant) := GetCoreMatrix gp in
  (* data fit *)
  YC <- product (adjoint Y) C ;;
  YCY <- product YC Y ;;
  let df := diagonal (scale (Fin (-0.5)) YCY) in
  (* complexity penalty *)
  let cp :=
    if fleb determinant (Fin numeric_limits.min)
    then fmul (Fin (-0.5)) (flog (Fin numeric_limits.min))
    else if fltb (Fin numeric_limits.max) determinant
    then fmul (Fin (-0.5)) (flog (Fin numeric_limits.max))
    else fmul (Fin (-0.5)) (flog determinant) in
  (* constant term *)
  let ct :=
    fmul (fdiv (of_Z (- Z.of_N (rows C))) (Fin 2.0))
      (flog (fmul (Fin 2) M_PI)) in
  let value := map (fun x => fadd x (fadd cp ct)) df in
  if isinf (sum value) then
    Throw [Build_diagnostics df cp ct determinant]
      (Str "GaussianLogLikelihood::GetValueAndParameterDerivatives: likelihood is infinite.")
  else Return value.

Definition GetParameterDerivatives (gp : GaussianProcess)
  : outcome VectorType :=
  let Y := GetLabelMatrix gp in
  let C := fst (GetCoreMatrix gp) in
  alpha <- product C Y ;;
  (* D has the dimensions of num_params*C.rows x C.cols *)
  let D := GetDerivativeKernelMatrix gp in
  q <- index_div (rows D) (cols D) ;;
  let num_params := static_cast_unsigned q in
  if fneb (fsub (fdiv (of_N (rows D)) (of_N (cols D))) (of_N num_params))
       (Fin 0)
  then
    Throw []
      (Str "GaussianLogLikelihood: wrong dimension of derivative kernel matrix.")
  else
    let delta := VectorZero num_params in
    delta <- for_loop num_params
               (fun p delta =>
                  aat <- product alpha (adjoint alpha) ;;
                  m <- difference aat C ;;
                  Dp <- block D (p * cols D) 0 (cols D) (cols D) ;;
                  mD <- product m Dp ;;
                  Return (set_at delta p (fmul (Fin 0.5) (trace mD))))
               delta ;;
    Return delta.

Definition GetValueAndParameterDerivatives `{numeric_limits.t}
  (gp : GaussianProcess) : outcome (VectorType * VectorType) :=
  let Y := GetLabelMatrix gp in
  let (C, determinant) := GetCoreMatrix gp in
  (* data fit *)
  YC <- product (adjoint Y) C ;;
  YCY <- product YC Y ;;
  let df := diagonal (scale (Fin (-0.5)) YCY) in
  (* complexity penalty *)
  let cp :=
    if fleb determinant (Fin numeric_limits.min)
    then fmul (Fin (-0.5)) (flog (Fin numeric_limits.min))
    else if fltb (Fin numeric_limits.max) determinant
    then fmul (Fin (-0.5)) (flog (Fin numeric_limits.max))
    else fmul (Fin (-0.5)) (flog determinant) in
  (* constant term *)
  let ct :=
    fmul (fdiv (of_Z (- Z.of_N (rows C))) (Fin 2.0))
      (flog (fmul (Fin 2) M_PI)) in
  let value := map (fun x => fadd x (fadd cp ct)) df in
  if isinf (sum value) then
    Throw [Build_diagnostics df cp ct determinant]
      (Str "GaussianLogLikelihood::GetValueAndParameterDerivatives: likelihood is infinite.")
  else
    (* DERIVATIVE *)
    alpha <- product C Y ;;
    let D := GetDerivativeKernelMatrix gp in
    q <- index_div (rows D) (cols D) ;;
    let num_params := static_cast_unsigned q in
    if fneb (fsub (fdiv (of_N (rows D)) (of_N (cols D))) (of_N num_params))
         (Fin 0)
    then
      Throw []
        (Str "GaussianLogLikelihood: wrong dimension of derivative kernel matrix.")
    else
      let delta := VectorZero num_params in
      delta <- for_loop num_params
                 (fun p delta =>
                    aat <- product alpha (adjoint alpha) ;;
                    m <- difference aat C ;;
                    Dp <- block D (p * cols D) 0 (cols D) (cols D) ;;
                    mD <- product m Dp ;;
                    Return (set_at delta p (fmul (Fin 0.5) (trace mD))))
                 delta ;;
      Return (value, delta).

Definition GetValueAndJacobian `{numeric_limits.t} (gp : GaussianProcess)
  : outcome (VectorType * MatrixType) :=
  let Y := GetLabelMatrix gp in
  let (C, determinant) := GetCoreMatrix gp in
  (* data fit *)
  YC <- product (adjoint Y) C ;;
  YCY <- product YC Y ;;
  let df := diagonal (scale (Fin (-0.5)) YCY) in
  (* complexity penalty *)
  let cp :=
    if fleb determinant (Fin numeric_limits.min)
    then fmul (Fin (-0.5)) (flog (Fin numeric_limits.min))
    else if fltb (Fin numeric_limits.max) determinant
    then fmul (Fin (-0.5)) (flog (Fin numeric_limits.max))
    else fmul (Fin (-0.5)) (flog determinant) in
  (* constant term *)
  let ct :=
    fmul (fdiv (of_Z (- Z.of_N (rows C))) (Fin 2.0))
      (flog (fmul (Fin 2) M_PI)) in
  let value := map (fun x => fadd x (fadd cp ct)) df in
  if isinf (sum value) then
    Throw [Build_diagnostics df cp ct determinant]
      (Str "GaussianLogLikelihood::GetValueAndParameterDerivatives: likelihood is infinite.")
  else
    (* DERIVATIVE *)
    let D := GetDerivativeKernelMatrix gp in
    q <- index_div (rows D) (cols D) ;;
    let num_params := static_cast_unsigned q in
    if fneb (fsub (fdiv (of_N (rows D)) (of_N (cols D))) (of_N num_params))
         (Fin 0)
    then
      Throw []
        (Str "GaussianLogLikelihood: wrong dimension of derivative kernel matrix.")
    else
      let jacobian := Zero (cols Y) num_params in
      jacobian <- for_loop (cols Y)
                    (fun i jacobian =>
                       Yi <- col Y i ;;
                       alpha <- product C Yi ;;
                       for_loop num_params
                         (fun p jacobian =>
                            aat <- product alpha (adjoint alpha) ;;
                            m <- difference aat C ;;
                            Dp <- block D (p * cols D) 0 (cols D) (cols D) ;;
                            mD <- product m Dp ;;
                            Return (set_coeff jacobian i p
                                      (fmul (Fin 0.5) (trace mD))))
                         jacobian)
                    jacobian ;;
      Return (value, jacobian).

Definition ToString : string := "GaussianLogLikelihood".

End GaussianLogLikelihood.

(** ** Virtual dispatch

    A [Likelihood::Pointer] points to an object of one of the two concrete
    classes; a call through it runs the final overrider of the member, which
    is the member of [Likelihood] where the class declares none. *)
Inductive dynamic_type : Type :=
| PlainLikelihood   (* GaussianLikelihood *)
| LogLikelihood.    (* GaussianLogLikelihood *)

Inductive operation : Type :=
| Evaluate                        (* operator() *)
| ParameterDerivatives            (* GetParameterDerivatives *)
| ValueAndParameterDerivatives    (* GetValueAndParameterDerivatives *)
| ValueAndJacobian.               (* GetValueAndJacobian *)

(** The name of the member, as the messages of [Likelihood] spell it. *)
Definition member_name (op : operation) : string :=
  match op with
  | Evaluate => "operator()"
  | ParameterDerivatives => "GetParameterDerivatives"
  | ValueAndParameterDerivatives => "GetValueAndParameterDerivatives"
  | ValueAndJacobian => "GetValueAndJacobian"
  end.

(** The members each class declares itself. *)
Definition declares (c : dynamic_type) (op : operation) : bool :=
  match c, op with
  | PlainLikelihood, Evaluate => true
  | PlainLikelihood, _ => false
  | LogLikelihood, _ => true
  end.

Definition result_type (op : operation) : Type :=
  match op with
  | Evaluate => VectorType
  | ParameterDerivatives => VectorType
  | ValueAndParameterDerivatives => (VectorType * VectorType)%type
  | ValueAndJacobian => (VectorType * MatrixType)%type
  end.

Definition call `{numeric_limits.t} (c : dynamic_type) (op : operation)
  (gp : GaussianProcess) : outcome (result_type op) :=
  match c, op with
  | PlainLikelihood, Evaluate => GaussianLikelihood.operator gp
  | PlainLikelihood, ParameterDerivatives =>
      Likelihood.GetParameterDerivatives gp
  | PlainLikelihood, ValueAndParameterDerivatives =>
      Likelihood.GetValueAndParameterDerivatives gp
  | PlainLikelihood, ValueAndJacobian => Likelihood.GetValueAndJacobian gp
  | LogLikelihood, Evaluate => GaussianLogLikelihood.operator gp
  | LogLikelihood, ParameterDerivatives =>
      GaussianLogLikelihood.GetParameterDerivatives gp
  | LogLikelihood, ValueAndParameterDerivatives =>
      GaussianLogLikelihood.GetValueAndParameterDerivatives gp
  | LogLikelihood, ValueAndJacobian =>
      GaussianLogLikelihood.GetValueAndJacobian gp
  end.

Definition ToString (c : dynamic_type) : string :=
  match c with
  | PlainLikelihood => GaussianLikelihood.ToString
  | LogLikelihood => GaussianLogLikelihood.ToString
  end.

(** ** The quantities of the specification

    The matrices a call reads, and the terms of sections 4.2 to 4.6 written
    out coefficient by coefficient. *)
Definition labels (gp : GaussianProcess) : MatrixType :=
  ComputeLabelMatrix gp.
Definition core (gp : GaussianProcess) : MatrixType :=
  fst (ComputeCoreMatrixWithDeterminant gp).
Definition determinant (gp : GaussianProcess) : fp :=
  snd (ComputeCoreMatrixWithDeterminant gp).
Definition kernel_derivatives (gp : GaussianProcess) : MatrixType :=
  ComputeDerivativeKernelMatrix gp.

(** [Y' * C * Y] is well formed: [Y] has as many rows as [C] has rows and
    columns. *)
Definition shapes_fit (gp : GaussianProcess) : bool :=
  ((rows (labels gp) =? rows (core gp))
   && (cols (core gp) =? rows (labels gp)))%N.

(** The n of the specification is shared by Y, C and the blocks of D. *)
Definition consistent (gp : GaussianProcess) : Prop :=
  rows (core gp) = cols (core gp)
  /\ rows (labels gp) = cols (core gp)
  /\ cols (kernel_derivatives gp) = cols (core gp).

(** Every coefficient is a real number. *)
Definition real_matrix (m : MatrixType) : Prop :=
  forall i j, finite (coeff m i j).

(** [(Y' C Y)_ii], the products taken from left to right. *)
Definition quadratic_form (gp : GaussianProcess) (i : N) : fp :=
  sum_to (cols (core gp))
    (fun b =>
       fmul (sum_to (rows (labels gp))
               (fun a => fmul (coeff (labels gp) a i) (coeff (core gp) a b)))
         (coeff (labels gp) b i)).

(** [-0.5 * diag(Y' C Y)], one value per output column. *)
Definition data_fit (gp : GaussianProcess) : VectorType :=
  map (fun i => fmul (Fin (-0.5)) (quadratic_form gp i))
    (iota (cols (labels gp))).

(** 4.2: the penalty [1/sqrt d], its clamped value, and the constant
    [(2 pi)^(-n/2)]. *)
Definition plain_penalty (d : fp) : fp := fdiv (Fin 1.0) (fsqrt d).

Definition plain_penalty_clamped `{numeric_limits.t} : fp :=
  fdiv (Fin 1.0) (fsqrt (Fin numeric_limits.min)).

Definition plain_constant (n : N) : fp :=
  fdiv (Fin 1.0) (fpow (fmul (Fin 2) M_PI) (fdiv (of_N n) (Fin 2.0))).

(** The plain likelihood with penalty [cp]: [dataFit * cp * ct]. *)
Definition plain_value (cp : fp) (gp : GaussianProcess) : VectorType :=
  map (fun x => fmul (fmul x cp) (plain_constant (rows (core gp))))
    (map fexp (data_fit gp)).

(** 4.3: the penalty of the log-likelihood, and its two clamped values. *)
Definition log_penalty_lower `{numeric_limits.t} : fp :=
  fmul (Fin (-0.5)) (flog (Fin numeric_limits.min)).

Definition log_penalty_upper `{numeric_limits.t} : fp :=
  fmul (Fin (-0.5)) (flog (Fin numeric_limits.max)).

Definition log_penalty `{numeric_limits.t} (d : fp) : fp :=
  if fleb d (Fin numeric_limits.min) then log_penalty_lower
  else if fltb (Fin numeric_limits.max) d then log_penalty_upper
  else fmul (Fin (-0.5)) (flog d).

Definition log_constant (n : N) : fp :=
  fmul (fdiv (of_Z (- Z.of_N n)) (Fin 2.0)) (flog (fmul (Fin 2) M_PI)).

(** The log-likelihood with penalty [cp]: [dataFit + cp + ct]. *)
Definition log_value_with (cp : fp) (gp : GaussianProcess) : VectorType :=
  map (fun x => fadd x (fadd cp (log_constant (rows (core gp)))))
    (data_fit gp).

Definition log_value `{numeric_limits.t} (gp : GaussianProcess) : VectorType :=
  log_value_with (log_penalty (determinant gp)) gp.

Definition log_diagnostics `{numeric_limits.t} (gp : GaussianProcess)
  : diagnostics :=
  {| diag_df := data_fit gp;
     diag_cp := log_penalty (determinant gp);
     diag_ct := log_constant (rows (core gp));
     diag_determinant := determinant gp |}.

(** 4.4: [alpha = C Y], the k-th n x n block of D, and
    [delta_k = 0.5 * trace((alpha alpha' - C) D_k)], the trace of the product
    being the sum of [A_ab * B_ba].  [n] is the column count of D and [t] the
    column count of Y. *)
Definition spec_alpha (gp : GaussianProcess) (a c : N) : fp :=
  sum_to (cols (kernel_derivatives gp))
    (fun j => fmul (coeff (core gp) a j) (coeff (labels gp) j c)).

Definition spec_block (gp : GaussianProcess) (k : N) (b a : N) : fp :=
  coeff (kernel_derivatives gp) (k * cols (kernel_derivatives gp) + b)%N a.

Definition spec_delta (gp : GaussianProcess) (k : N) : fp :=
  let n := cols (kernel_derivatives gp) in
  let t := cols (labels gp) in
  fmul (Fin 0.5)
    (sum_to n
       (fun a =>
          sum_to n
            (fun b =>
               fmul
                 (fsub
                    (sum_to t
                       (fun c => fmul (spec_alpha gp a c) (spec_alpha gp b c)))
                    (coeff (core gp) a b))
                 (spec_block gp k b a)))).

(** 4.6: the same for one output column i, [alpha_i = C Y_col_i]. *)
Definition spec_jacobian (gp : GaussianProcess) (i k : N) : fp :=
  let n := cols (kernel_derivatives gp) in
  fmul (Fin 0.5)
    (sum_to n
       (fun a =>
          sum_to n
            (fun b =>
               fmul
                 (fsub (fmul (spec_alpha gp a i) (spec_alpha gp b i))
                    (coeff (core gp) a b))
                 (spec_block gp k b a)))).

(** The number of parameters the header computes from the shape of D. *)
Definition num_params (gp : GaussianProcess) : N :=
  static_cast_unsigned
    (rows (kernel_derivatives gp) / cols (kernel_derivatives gp))%N.

(** ** The loops over the parameters

    One iteration computes [0.5 * trace((alpha alpha' - C) * D.block(...))]
    and stores it; [derivative_term] is the computation, and [mapM] and
    [assign_all] describe a loop of such iterations: the terms are computed
    in order, up to the first that fails, and stored. *)
Definition derivative_term (alpha C D : MatrixType) (p : N) : outcome fp :=
  aat <- product alpha (adjoint alpha) ;;
  m <- difference aat C ;;
  Dp <- block D (p * cols D) 0 (cols D) (cols D) ;;
  mD <- product m Dp ;;
  Return (fmul (Fin 0.5) (trace mD)).

Fixpoint mapM {A B : Type} (g : A -> outcome B) (l : list A)
  : outcome (list B) :=
  match l with
  | [] => Return []
  | a :: l' => b <- g a ;; bs <- mapM g l' ;; Return (b :: bs)
  end.

Definition assign_all {S : Type} (assign : S -> N -> fp -> S)
  (l : list N) (vs : list fp) (s : S) : S :=
  fold_left (fun s pv => assign s (fst pv) (snd pv)) (combine l vs) s.

(** The loop of [GetValueAndJacobian] over the output columns: row [i] of the
    Jacobian receives the terms of [alpha = C * Y.col(i)]. *)
Definition jacobian_rows (gp : GaussianProcess) : outcome MatrixType :=
  for_loop (cols (labels gp))
    (fun i jacobian =>
       Yi <- col (labels gp) i ;;
       alpha <- product (core gp) Yi ;;
       vs <- mapM (derivative_term alpha (core gp) (kernel_derivatives gp))
               (iota (num_params gp)) ;;
       Return (assign_all (fun J p v => set_coeff J i p v)
                 (iota (num_params gp)) vs jacobian))
    (Zero (cols (labels gp)) (num_params gp)).

(** The derivative part of the three operations, once the value is there:
    the test on the shape of D, then the loop. *)
Definition after_dimension_test {A : Type} (gp : GaussianProcess)
  (loop : outcome A) : outcome A :=
  if (cols (kernel_derivatives gp) =? 0)%N then Undefined
  else if negb (rows (kernel_derivatives gp)
                =? num_params gp * cols (kernel_derivatives gp))%N
  then Throw [] wrong_dimension
  else loop.

(** ** Concrete models

    The scenario of the specification (section 8): n = 2, t = 1, C the
    identity, Y = (1, 0)', d = 1 and D a single 2 x 2 block of zeros; and
    variations of it. *)
Definition of_rows (r c : N) (l : list (list fp)) : MatrixType :=
  Matrix r c (fun i j => nth (N.to_nat j) (nth (N.to_nat i) l []) (Fin 0)).

Definition scenario : GaussianProcess :=
  {| ComputeLabelMatrix := of_rows 2 1 [[Fin 1]; [Fin 0]];
     ComputeCoreMatrixWithDeterminant :=
       (of_rows 2 2 [[Fin 1; Fin 0]; [Fin 0; Fin 1]], Fin 1);
     ComputeDerivativeKernelMatrix := Zero 2 2;
     GaussianProcess_GetSigma := Fin 0 |}.

Definition with_determinant (d : fp) (gp : GaussianProcess)
  : GaussianProcess :=
  {| ComputeLabelMatrix := ComputeLabelMatrix gp;
     ComputeCoreMatrixWithDeterminant :=
       (fst (ComputeCoreMatrixWithDeterminant gp), d);
     ComputeDerivativeKernelMatrix := ComputeDerivativeKernelMatrix gp;
     GaussianProcess_GetSigma := GaussianProcess_GetSigma gp |}.

Definition with_derivatives (D : MatrixType) (gp : GaussianProcess)
  : GaussianProcess :=
  {| ComputeLabelMatrix := ComputeLabelMatrix gp;
     ComputeCoreMatrixWithDeterminant := ComputeCoreMatrixWithDeterminant gp;
     ComputeDerivativeKernelMatrix := D;
     GaussianProcess_GetSigma := GaussianProcess_GetSigma gp |}.

(** A determinant below [-epsilon], one equal to [epsilon], and one that is
    not a number. *)
Definition negative_determinant : GaussianProcess :=
  with_determinant (Fin (-1)) scenario.


Definition nan_determinant : GaussianProcess :=
  with_determinant NaN scenario.

(** Infinite labels, and a D of 3 rows and 2 columns. *)
Definition infinite_labels : GaussianProcess :=
  {| ComputeLabelMatrix := of_rows 2 1 [[PInf]; [PInf]];
     ComputeCoreMatrixWithDeterminant :=
       (of_rows 2 2 [[Fin 1; Fin 1]; [Fin 1; Fin 1]], Fin 1);
     ComputeDerivativeKernelMatrix := Zero 3 2;
     GaussianProcess_GetSigma := Fin 0 |}.

(** The scenario with a D of 3 rows and 2 columns. *)
Definition odd_derivatives : GaussianProcess :=
  with_derivatives (Zero 3 2) scenario.

(** One training point and 2^32 parameters: D has 2^32 rows and 1 column. *)
Definition many_parameters : GaussianProcess :=
  {| ComputeLabelMatrix := of_rows 1 1 [[Fin 0]];
     ComputeCoreMatrixWithDeterminant := (of_rows 1 1 [[Fin 1]], Fin 1);
     ComputeDerivativeKernelMatrix := Zero (2 ^ 32) 1;
     GaussianProcess_GetSigma := Fin 0 |}.

(** No training point: Y is 0 x 1, C and D are 0 x 0. *)
Definition no_training_point : GaussianProcess :=
  {| ComputeLabelMatrix := Zero 0 1;
     ComputeCoreMatrixWithDeterminant := (Zero 0 0, Fin 1);
     ComputeDerivativeKernelMatrix := Zero 0 0;
     GaussianProcess_GetSigma := Fin 0 |}.

(** The scenario with a D of one row and no column. *)
Definition no_column : GaussianProcess :=
  with_derivatives (Zero 1 0) scenario.

(** A positive real number. *)
Definition positive (a : fp) : Prop := exists r, a = Fin r /\ 0 < r.


(** The scenario with a D of 3 rows and 2 columns and a determinant that is
    not a number. *)
Definition nan_odd_derivatives : GaussianProcess :=
  with_determinant NaN odd_derivatives.

(** A value that is not below zero: a nonnegative number, +Inf, or NaN. *)
Definition not_negative (a : fp) : Prop := fltb a (Fin 0) = false.

(** ** Further definitions *)

(** A call that returns or is undefined, and throws nothing. *)
Definition never_throws {A : Type} (c : outcome A) : Prop :=
  forall out e, c <> Throw out e.

(** The real number of a finite scalar. *)
Definition to_R (a : fp) : R :=
  match a with
  | Fin r => r
  | _ => 0
  end.

(** Two output columns: n = 2, t = 2, Y and C the identity, d = 1, and a D
    of two 2 x 2 blocks. *)
Definition two_outputs : GaussianProcess :=
  {| ComputeLabelMatrix := of_rows 2 2 [[Fin 1; Fin 0]; [Fin 0; Fin 1]];
     ComputeCoreMatrixWithDeterminant :=
       (of_rows 2 2 [[Fin 1; Fin 0]; [Fin 0; Fin 1]], Fin 1);
     ComputeDerivativeKernelMatrix :=
       of_rows 4 2 [[Fin 1; Fin 2]; [Fin 2; Fin 3];
                    [Fin 0; Fin 0]; [Fin 0; Fin 0]];
     GaussianProcess_GetSigma := Fin 0 |}.

(** An infinite determinant. *)
Definition infinite_determinant : GaussianProcess :=
  with_determinant PInf scenario.

(** Sums of real numbers over 0 .. n-1; the matrix [alpha = C Y] and half the
    trace of [C D_k] in real numbers. *)
Definition rsum (n : N) (f : N -> R) : R :=
  fold_left Rplus (map f (iota n)) 0.

Definition real_alpha (gp : GaussianProcess) (a c : N) : R :=
  rsum (cols (kernel_derivatives gp))
    (fun j => to_R (coeff (core gp) a j) * to_R (coeff (labels gp) j c)).

Definition half_trace_core_block (gp : GaussianProcess) (k : N) : R :=
  let n := cols (kernel_derivatives gp) in
  / 2 * rsum n
          (fun a =>
             rsum n
               (fun b =>
                  to_R (coeff (core gp) a b) * to_R (spec_block gp k b a))).

(** The determinant as [GaussianLogLikelihood] takes its logarithm: clamped
    into [min, max]. *)
Definition clamped_determinant `{numeric_limits.t} (d : fp) : R :=
  match d with
  | Fin x =>
      if Rleb x numeric_limits.min then numeric_limits.min
      else if Rltb numeric_limits.max x then numeric_limits.max
      else x
  | PInf => numeric_limits.max
  | NInf => numeric_limits.min
  | NaN => 0
  end.


(** * Properties *)

(** ** Scalars and loops *)

Lemma Rltb_true (x y : R) : Rltb x y = true <-> x < y.
Proof. unfold Rltb; destruct (Rlt_dec x y); split; intros; congruence || lra. Qed.

Lemma Rltb_false (x y : R) : Rltb x y = false <-> y <= x.
Proof. unfold Rltb; destruct (Rlt_dec x y); split; intros; congruence || lra. Qed.

Lemma Rleb_true (x y : R) : Rleb x y = true <-> x <= y.
Proof. unfold Rleb; destruct (Rle_dec x y); split; intros; congruence || lra. Qed.

Lemma Rleb_false (x y : R) : Rleb x y = false <-> y < x.
Proof. unfold Rleb; destruct (Rle_dec x y); split; intros; congruence || lra. Qed.

Lemma Reqb_true (x y : R) : Reqb x y = true <-> x = y.
Proof. unfold Reqb; destruct (Req_dec_T x y); split; intros; congruence. Qed.

Lemma Reqb_false (x y : R) : Reqb x y = false <-> x <> y.
Proof. unfold Reqb; destruct (Req_dec_T x y); split; intros; congruence. Qed.

Lemma Rltb_lt (x y : R) : x < y -> Rltb x y = true.
Proof. apply Rltb_true. Qed.

Lemma Rltb_ge (x y : R) : y <= x -> Rltb x y = false.
Proof. apply Rltb_false. Qed.

Lemma Rleb_le (x y : R) : x <= y -> Rleb x y = true.
Proof. apply Rleb_true. Qed.

Lemma Rleb_gt (x y : R) : y < x -> Rleb x y = false.
Proof. apply Rleb_false. Qed.

Lemma Reqb_neq (x y : R) : x <> y -> Reqb x y = false.
Proof. apply Reqb_false. Qed.

Lemma Reqb_refl (x : R) : Reqb x x = true.
Proof. now apply Reqb_true. Qed.

Lemma in_iota (n i : N) : In i (iota n) <-> (i < n)%N.
Proof.
  unfold iota; rewrite in_map_iff; split.
  - intros (k & <- & Hk); apply in_seq in Hk; lia.
  - intros Hi; exists (N.to_nat i); split; [apply N2Nat.id|].
    apply in_seq; lia.
Qed.

Lemma length_iota (n : N) : List.length (iota n) = N.to_nat n.
Proof. unfold iota; now rewrite length_map, length_seq. Qed.

Lemma iota_of_length {A : Type} (l : list A) :
  iota (N.of_nat (List.length l)) = map N.of_nat (seq 0 (List.length l)).
Proof. unfold iota; now rewrite Nat2N.id. Qed.

Lemma sum_to_ext (n : N) (f g : N -> fp) :
  (forall i, (i < n)%N -> f i = g i) -> sum_to n f = sum_to n g.
Proof.
  intros H; unfold sum_to; f_equal.
  apply map_ext_in; intros i Hi; apply H, in_iota, Hi.
Qed.

Lemma set_nth_app (prefix suffix : list fp) (x y : fp) :
  set_nth (prefix ++ x :: suffix) (List.length prefix) y = prefix ++ y :: suffix.
Proof. induction prefix as [|a prefix IH]; simpl; [reflexivity | now rewrite IH]. Qed.

(** A loop that overwrites every component of a vector with a function of
    its old value is [map]. *)
Lemma for_each_overwrite (f : fp -> fp) (suffix prefix : list fp) :
  for_each (map N.of_nat (seq (List.length prefix) (List.length suffix)))
    (fun i v => Return (set_at v i (f (nth (N.to_nat i) v (Fin 0)))))
    (prefix ++ suffix)
  = Return (prefix ++ map f suffix).
Proof.
  revert prefix; induction suffix as [|x suffix IH]; intros prefix; simpl.
  - reflexivity.
  - unfold set_at; rewrite Nat2N.id, nth_middle, set_nth_app.
    specialize (IH (prefix ++ [f x])).
    rewrite length_app, Nat.add_comm in IH; simpl in IH.
    now rewrite <- !app_assoc in IH.
Qed.

Lemma for_loop_overwrite (f : fp -> fp) (v : list fp) :
  for_loop (N.of_nat (List.length v))
    (fun i v => Return (set_at v i (f (nth (N.to_nat i) v (Fin 0))))) v
  = Return (map f v).
Proof.
  unfold for_loop; rewrite iota_of_length.
  exact (for_each_overwrite f v []).
Qed.

(** ** The limits of the x87 format *)

Lemma x87_min_pos : 0 < x87_min.
Proof. apply powerRZ_lt; lra. Qed.


Lemma powerRZ_2_lt (a b : Z) : (a < b)%Z -> powerRZ 2 a < powerRZ 2 b.
Proof.
  intros H; rewrite !powerRZ_Rpower by lra.
  apply Rpower_lt; [lra | now apply IZR_lt].
Qed.

Lemma x87_min_lt_epsilon : x87_min < x87_epsilon.
Proof. apply powerRZ_2_lt; lia. Qed.

Lemma x87_epsilon_lt_1 : x87_epsilon < 1.
Proof.
  rewrite <- (powerRZ_O 2); apply powerRZ_2_lt; lia.
Qed.

Lemma x87_max_gt_1 : 1 < x87_max.
Proof.
  unfold x87_max.
  pose proof x87_epsilon_lt_1 as H1; unfold x87_epsilon in H1.
  assert (H2 : 1 < powerRZ 2 16383)
    by (rewrite <- (powerRZ_O 2) at 1; apply powerRZ_2_lt; lia).
  nra.
Qed.

Lemma x87_wf : numeric_limits.wf x87.
Proof.
  unfold numeric_limits.wf; simpl.
  pose proof x87_min_pos; pose proof x87_min_lt_epsilon;
    pose proof x87_epsilon_lt_1; pose proof x87_max_gt_1; tauto.
Qed.

Global Opaque x87_epsilon x87_min x87_max.

(** ** The two values *)

Section Values.
Context {limits : numeric_limits.t}.

(** [GaussianLikelihood::operator()] in one equation. *)
Lemma plain_operator_eq (gp : GaussianProcess) :
  GaussianLikelihood.operator gp =
  if shapes_fit gp then
    if fltb (determinant gp) (fneg (Fin numeric_limits.epsilon)) then
      Throw [] (determinant_negative (determinant gp))
    else if fleb (determinant gp) (Fin 0) then
      Return (plain_value plain_penalty_clamped gp)
    else Return (plain_value (plain_penalty (determinant gp)) gp)
  else Undefined.
Proof.
  unfold GaussianLikelihood.operator, Likelihood.GetLabelMatrix,
    Likelihood.GetCoreMatrix, plain_value, data_fit, quadratic_form,
    shapes_fit, labels, core, determinant, product.
  destruct (ComputeCoreMatrixWithDeterminant gp) as [C d]; simpl.
  destruct (rows (ComputeLabelMatrix gp) =? rows C)%N; simpl; [|reflexivity].
  destruct (cols C =? rows (ComputeLabelMatrix gp))%N; simpl; [|reflexivity].
  unfold diagonal; simpl.
  rewrite for_loop_overwrite; simpl.
  destruct (fltb d _); [reflexivity|].
  destruct (fleb d (Fin 0)); reflexivity.
Qed.

(** [GaussianLogLikelihood::operator()] in one equation. *)
Lemma log_operator_eq (gp : GaussianProcess) :
  GaussianLogLikelihood.operator gp =
  if shapes_fit gp then
    if isinf (sum (log_value gp)) then
      Throw [log_diagnostics gp] likelihood_infinite
    else Return (log_value gp)
  else Undefined.
Proof.
  unfold GaussianLogLikelihood.operator, Likelihood.GetLabelMatrix,
    Likelihood.GetCoreMatrix, log_value, log_value_with, log_diagnostics,
    log_penalty, data_fit, quadratic_form, shapes_fit, labels, core,
    determinant, product.
  destruct (ComputeCoreMatrixWithDeterminant gp) as [C d]; simpl.
  destruct (rows (ComputeLabelMatrix gp) =? rows C)%N; simpl; [|reflexivity].
  destruct (cols C =? rows (ComputeLabelMatrix gp))%N; simpl; reflexivity.
Qed.

End Values.

(** ** Loops that store one computed term per index *)

Lemma bind_Return {A : Type} (c : outcome A) : (x <- c ;; Return x) = c.
Proof. now destruct c. Qed.

Lemma bind_assoc {A B C : Type} (c : outcome A) (k : A -> outcome B)
  (k' : B -> outcome C) :
  (y <- (x <- c ;; k x) ;; k' y) = (x <- c ;; y <- k x ;; k' y).
Proof. now destruct c. Qed.

Lemma for_each_ext {S : Type} (l : list N) (body body' : N -> S -> outcome S)
  (s : S) :
  (forall i s, In i l -> body i s = body' i s) ->
  for_each l body s = for_each l body' s.
Proof.
  revert s; induction l as [|i l IH]; intros s H; simpl; [reflexivity|].
  rewrite (H i s) by now left.
  destruct (body' i s); simpl; try reflexivity.
  apply IH; intros; apply H; now right.
Qed.

Lemma for_each_assign {S : Type} (assign : S -> N -> fp -> S)
  (g : N -> outcome fp) (l : list N) (s : S) :
  for_each l (fun p s => v <- g p ;; Return (assign s p v)) s
  = (vs <- mapM g l ;; Return (assign_all assign l vs s)).
Proof.
  revert s; induction l as [|p l IH]; intros s; simpl; [reflexivity|].
  destruct (g p) as [v| |]; simpl; try reflexivity.
  rewrite IH; destruct (mapM g l); reflexivity.
Qed.

Lemma mapM_Return {A B : Type} (g : A -> outcome B) (h : A -> B) (l : list A) :
  (forall a, In a l -> g a = Return (h a)) -> mapM g l = Return (map h l).
Proof.
  induction l as [|a l IH]; intros H; simpl; [reflexivity|].
  rewrite (H a) by now left; simpl.
  rewrite IH by (intros; apply H; now right); reflexivity.
Qed.

Lemma mapM_ext {A B : Type} (g g' : A -> outcome B) (l : list A) :
  (forall a, In a l -> g a = g' a) -> mapM g l = mapM g' l.
Proof.
  induction l as [|a l IH]; intros H; simpl; [reflexivity|].
  rewrite (H a) by now left.
  rewrite IH by (intros; apply H; now right); reflexivity.
Qed.

Lemma mapM_length {A B : Type} (g : A -> outcome B) (l : list A) (bs : list B) :
  mapM g l = Return bs -> List.length bs = List.length l.
Proof.
  revert bs; induction l as [|a l IH]; intros bs; simpl.
  - now intros [= <-].
  - destruct (g a); simpl; try discriminate.
    destruct (mapM g l); simpl; try discriminate.
    intros [= <-]; simpl; f_equal; now apply IH.
Qed.

(** Stored in order into a vector of the same length, the terms are the
    vector. *)
Lemma assign_all_set_at (vs suffix prefix : list fp) :
  List.length vs = List.length suffix ->
  assign_all set_at
    (map N.of_nat (seq (List.length prefix) (List.length vs))) vs
    (prefix ++ suffix)
  = prefix ++ vs.
Proof.
  revert suffix prefix; induction vs as [|v vs IH];
    intros [|x suffix] prefix Hlen; try discriminate; [reflexivity|].
  unfold assign_all in *; simpl.
  unfold set_at at 2; rewrite Nat2N.id, set_nth_app.
  specialize (IH suffix (prefix ++ [v])).
  rewrite length_app, Nat.add_comm, <- !app_assoc in IH; simpl in IH.
  apply IH; simpl in Hlen; lia.
Qed.

Lemma assign_all_VectorZero (n : N) (vs : list fp) :
  List.length vs = N.to_nat n ->
  assign_all set_at (iota n) vs (VectorZero n) = vs.
Proof.
  intros Hlen; unfold iota; rewrite <- Hlen.
  apply (assign_all_set_at vs (VectorZero n) []).
  unfold VectorZero; now rewrite repeat_length.
Qed.

Lemma assign_all_rows (i : N) (l : list N) (vs : list fp) (J : MatrixType) :
  rows (assign_all (fun J p v => set_coeff J i p v) l vs J) = rows J
  /\ cols (assign_all (fun J p v => set_coeff J i p v) l vs J) = cols J.
Proof.
  unfold assign_all; revert vs J; induction l as [|p l IH];
    intros [|v vs] J; simpl; try (split; reflexivity).
  destruct (IH vs (set_coeff J i p v)) as [-> ->]; split; reflexivity.
Qed.

Lemma assign_all_other (i : N) (l : list N) (vs : list fp) (J : MatrixType)
  (a b : N) :
  ~ In b l ->
  coeff (assign_all (fun J p v => set_coeff J i p v) l vs J) a b = coeff J a b.
Proof.
  unfold assign_all; revert vs J; induction l as [|p l IH];
    intros [|v vs] J Hb; simpl; try reflexivity.
  rewrite IH by (intros H; apply Hb; now right); simpl.
  destruct (N.eqb_spec b p) as [->|_]; [exfalso; apply Hb; now left|].
  now rewrite andb_false_r.
Qed.

(** Stored in order into row [i] of a matrix, the terms are that row. *)
Lemma assign_all_set_coeff (i : N) (l : list N) (vs : list fp)
  (J : MatrixType) (j : nat) :
  NoDup l -> List.length vs = List.length l -> (j < List.length l)%nat ->
  coeff (assign_all (fun J p v => set_coeff J i p v) l vs J) i (nth j l 0%N)
  = nth j vs (Fin 0).
Proof.
  revert vs J j; induction l as [|p l IH]; intros [|v vs] J j Hnd Hlen Hj;
    simpl in *; try lia.
  inversion Hnd as [|? ? Hp Hnd']; subst.
  destruct j as [|j].
  - change (coeff (assign_all (fun J p v => set_coeff J i p v) l vs
                     (set_coeff J i p v)) i p = v).
    rewrite assign_all_other by assumption; simpl.
    now rewrite !N.eqb_refl.
  - change (coeff (assign_all (fun J p v => set_coeff J i p v) l vs
                     (set_coeff J i p v)) i (nth j l 0%N) = nth j vs (Fin 0)).
    apply IH; [assumption|lia|lia].
Qed.

Lemma NoDup_iota (n : N) : NoDup (iota n).
Proof.
  unfold iota; apply NoDup_map_NoDup_ForallPairs; [|apply seq_NoDup].
  intros a b _ _; apply Nat2N.inj.
Qed.

Lemma nth_iota (n : N) (j : nat) :
  (j < N.to_nat n)%nat -> nth j (iota n) 0%N = N.of_nat j.
Proof.
  intros Hj; unfold iota.
  change 0%N with (N.of_nat 0); rewrite map_nth, seq_nth by assumption.
  reflexivity.
Qed.

Lemma map_nth_seq (vs : list fp) :
  map (fun j => nth j vs (Fin 0)) (seq 0 (List.length vs)) = vs.
Proof.
  induction vs as [|v vs IH]; simpl; [reflexivity|].
  f_equal; rewrite <- seq_shift, map_map; exact IH.
Qed.

Lemma map_nth_iota (vs : list fp) :
  map (fun j => nth (N.to_nat j) vs (Fin 0)) (iota (N.of_nat (List.length vs)))
  = vs.
Proof.
  rewrite iota_of_length, map_map.
  transitivity (map (fun j => nth j vs (Fin 0)) (seq 0 (List.length vs)));
    [|apply map_nth_seq].
  apply map_ext; intros j; now rewrite Nat2N.id.
Qed.

(** ** The test on the shape of D *)

Lemma dimension_test (r c np : N) :
  c <> 0%N ->
  fneb (fsub (fdiv (of_N r) (of_N c)) (of_N np)) (Fin 0)
  = negb (r =? np * c)%N.
Proof.
  intros Hc; unfold of_N, of_Z; simpl.
  assert (Hc' : IZR (Z.of_N c) <> 0) by (apply not_0_IZR; lia).
  rewrite (Reqb_neq _ _ Hc'); simpl; f_equal.
  destruct (N.eqb_spec r (np * c)) as [->|Hne].
  - apply Reqb_true; rewrite N2Z.inj_mul, mult_IZR; field; assumption.
  - apply Reqb_false; intros H; apply Hne.
    assert (E : IZR (Z.of_N r) = IZR (Z.of_N np * Z.of_N c)).
    { rewrite mult_IZR.
      replace (IZR (Z.of_N r))
        with ((IZR (Z.of_N r) / IZR (Z.of_N c)) * IZR (Z.of_N c))
        by (field; assumption).
      f_equal; lra. }
    apply eq_IZR in E; lia.
Qed.

(** The test passes on the shapes (p n) x n with p below 2^32 and n positive,
    and on no other. *)
Lemma num_params_exact (r c : N) :
  c <> 0%N ->
  (r =? static_cast_unsigned (r / c) * c)%N = true
  <-> exists p, (p < 2 ^ 32)%N /\ r = (p * c)%N.
Proof.
  intros Hc; unfold static_cast_unsigned; rewrite N.eqb_eq; split.
  - intros H; exists ((r / c) mod 2 ^ 32)%N; split; [|assumption].
    apply N.mod_lt; discriminate.
  - intros (p & Hp & ->).
    rewrite N.div_mul by assumption.
    now rewrite N.mod_small by assumption.
Qed.

(** ** The derivative operations *)

Lemma derivative_loop_body {S : Type} (assign : S -> N -> fp -> S)
  (alpha C D : MatrixType) (p : N) (s : S) :
  (aat <- product alpha (adjoint alpha) ;;
   m <- difference aat C ;;
   Dp <- block D (p * cols D) 0 (cols D) (cols D) ;;
   mD <- product m Dp ;;
   Return (assign s p (fmul (Fin 0.5) (trace mD))))
  = (v <- derivative_term alpha C D p ;; Return (assign s p v)).
Proof.
  unfold derivative_term.
  destruct (product alpha (adjoint alpha)) as [aat| |]; simpl; try reflexivity.
  destruct (difference aat C) as [m| |]; simpl; try reflexivity.
  destruct (block D (p * cols D) 0 (cols D) (cols D)) as [Dp| |]; simpl;
    try reflexivity.
  destruct (product m Dp); reflexivity.
Qed.

Lemma derivative_loop (alpha C D : MatrixType) (n : N) :
  for_loop n
    (fun p delta =>
       aat <- product alpha (adjoint alpha) ;;
       m <- difference aat C ;;
       Dp <- block D (p * cols D) 0 (cols D) (cols D) ;;
       mD <- product m Dp ;;
       Return (set_at delta p (fmul (Fin 0.5) (trace mD))))
    (VectorZero n)
  = mapM (derivative_term alpha C D) (iota n).
Proof.
  unfold for_loop.
  rewrite (for_each_ext _ _
             (fun p s => v <- derivative_term alpha C D p ;;
                         Return (set_at s p v)))
    by (intros; apply (derivative_loop_body set_at)).
  rewrite for_each_assign.
  destruct (mapM (derivative_term alpha C D) (iota n)) as [vs| |] eqn:E;
    simpl; try reflexivity.
  apply mapM_length in E; rewrite length_iota in E.
  now rewrite assign_all_VectorZero.
Qed.

Lemma jacobian_loop (gp : GaussianProcess) :
  for_loop (cols (labels gp))
    (fun i jacobian =>
       Yi <- col (labels gp) i ;;
       alpha <- product (core gp) Yi ;;
       for_loop (num_params gp)
         (fun p jacobian =>
            aat <- product alpha (adjoint alpha) ;;
            m <- difference aat (core gp) ;;
            Dp <- block (kernel_derivatives gp)
                    (p * cols (kernel_derivatives gp)) 0
                    (cols (kernel_derivatives gp))
                    (cols (kernel_derivatives gp)) ;;
            mD <- product m Dp ;;
            Return (set_coeff jacobian i p (fmul (Fin 0.5) (trace mD))))
         jacobian)
    (Zero (cols (labels gp)) (num_params gp))
  = jacobian_rows gp.
Proof.
  unfold jacobian_rows, for_loop.
  apply for_each_ext; intros i J _.
  destruct (col (labels gp) i) as [Yi| |]; simpl; try reflexivity.
  destruct (product (core gp) Yi) as [alpha| |]; simpl; try reflexivity.
  rewrite (for_each_ext _ _
             (fun p s => v <- derivative_term alpha (core gp)
                                (kernel_derivatives gp) p ;;
                         Return (set_coeff s i p v)))
    by (intros; apply (derivative_loop_body (fun J p v => set_coeff J i p v))).
  apply (for_each_assign (fun J p v => set_coeff J i p v)).
Qed.

(** [GaussianLogLikelihood::GetParameterDerivatives] in one equation. *)
Lemma parameter_derivatives_eq (gp : GaussianProcess) :
  GaussianLogLikelihood.GetParameterDerivatives gp =
  (alpha <- product (core gp) (labels gp) ;;
   after_dimension_test gp
     (mapM (derivative_term alpha (core gp) (kernel_derivatives gp))
        (iota (num_params gp)))).
Proof.
  unfold GaussianLogLikelihood.GetParameterDerivatives,
    Likelihood.GetLabelMatrix, Likelihood.GetCoreMatrix,
    Likelihood.GetDerivativeKernelMatrix, after_dimension_test, num_params,
    kernel_derivatives, core, labels, index_div.
  destruct (product _ _) as [alpha| |]; cbn [bind]; try reflexivity.
  destruct (N.eqb_spec (cols (ComputeDerivativeKernelMatrix gp)) 0)
    as [E|E]; cbn [bind]; [reflexivity|].
  rewrite dimension_test by assumption.
  destruct (negb _); [reflexivity|].
  rewrite bind_Return; apply derivative_loop.
Qed.

Section Derivatives.
Context {limits : numeric_limits.t}.

(** [GaussianLogLikelihood::GetValueAndParameterDerivatives] in one
    equation. *)
Lemma value_and_derivatives_eq (gp : GaussianProcess) :
  GaussianLogLikelihood.GetValueAndParameterDerivatives gp =
  if shapes_fit gp then
    if isinf (sum (log_value gp)) then
      Throw [log_diagnostics gp] likelihood_infinite
    else
      alpha <- product (core gp) (labels gp) ;;
      after_dimension_test gp
        (delta <- mapM (derivative_term alpha (core gp)
                          (kernel_derivatives gp))
                    (iota (num_params gp)) ;;
         Return (log_value gp, delta))
  else Undefined.
Proof.
  unfold GaussianLogLikelihood.GetValueAndParameterDerivatives,
    Likelihood.GetLabelMatrix, Likelihood.GetCoreMatrix,
    Likelihood.GetDerivativeKernelMatrix, after_dimension_test, num_params,
    log_value, log_value_with, log_diagnostics, log_penalty, data_fit,
    quadratic_form, shapes_fit, kernel_derivatives, labels, core,
    determinant, index_div.
  destruct (ComputeCoreMatrixWithDeterminant gp) as [C d]; cbn [fst snd].
  unfold product at 1.
  destruct (cols (adjoint (ComputeLabelMatrix gp)) =? rows C)%N eqn:E1;
    cbn [cols rows adjoint] in *; rewrite E1; cbn [bind]; [|reflexivity].
  unfold product at 1; cbn [bind cols rows adjoint].
  destruct (cols C =? rows (ComputeLabelMatrix gp))%N eqn:E2;
    cbn [bind]; [|reflexivity].
  unfold diagonal; cbn [bind cols rows adjoint scale coeff].
  destruct (isinf _); [reflexivity|].
  destruct (product C (ComputeLabelMatrix gp)) as [alpha| |]; cbn [bind];
    try reflexivity.
  destruct (N.eqb_spec (cols (ComputeDerivativeKernelMatrix gp)) 0)
    as [E|E]; cbn [bind]; [reflexivity|].
  rewrite dimension_test by assumption.
  destruct (negb _); [reflexivity|].
  rewrite derivative_loop; reflexivity.
Qed.

(** [GaussianLogLikelihood::GetValueAndJacobian] in one equation. *)
Lemma value_and_jacobian_eq (gp : GaussianProcess) :
  GaussianLogLikelihood.GetValueAndJacobian gp =
  if shapes_fit gp then
    if isinf (sum (log_value gp)) then
      Throw [log_diagnostics gp] likelihood_infinite
    else
      after_dimension_test gp
        (jacobian <- jacobian_rows gp ;; Return (log_value gp, jacobian))
  else Undefined.
Proof.
  pose proof (jacobian_loop gp) as HJ.
  unfold GaussianLogLikelihood.GetValueAndJacobian,
    Likelihood.GetLabelMatrix, Likelihood.GetCoreMatrix,
    Likelihood.GetDerivativeKernelMatrix, after_dimension_test,
    log_value, log_value_with, log_diagnostics, log_penalty, data_fit,
    quadratic_form, shapes_fit, index_div.
  unfold num_params, kernel_derivatives, labels, core, determinant in *.
  destruct (ComputeCoreMatrixWithDeterminant gp) as [C d]; cbn [fst snd] in *.
  unfold product at 1.
  destruct (cols (adjoint (ComputeLabelMatrix gp)) =? rows C)%N eqn:E1;
    cbn [cols rows adjoint] in *; rewrite E1; cbn [bind]; [|reflexivity].
  unfold product at 1; cbn [bind cols rows adjoint].
  destruct (cols C =? rows (ComputeLabelMatrix gp))%N eqn:E2;
    cbn [bind]; [|reflexivity].
  unfold diagonal; cbn [bind cols rows adjoint scale coeff].
  destruct (isinf _); [reflexivity|].
  destruct (N.eqb_spec (cols (ComputeDerivativeKernelMatrix gp)) 0)
    as [E|E]; cbn [bind]; [reflexivity|].
  rewrite dimension_test by assumption.
  destruct (negb _); [reflexivity|].
  rewrite HJ; reflexivity.
Qed.

End Derivatives.

(** ** Exact arithmetic on real inputs *)

Lemma literal_1_0 : 1.0 = 1.
Proof. lra. Qed.

Lemma literal_2_0 : 2.0 = 2.
Proof. lra. Qed.

Lemma literal_0_5 : 0.5 = / 2.
Proof. lra. Qed.

Lemma literal_m0_5 : -0.5 = - / 2.
Proof. lra. Qed.

Lemma finite_Fin (r : R) : finite (Fin r).
Proof. now exists r. Qed.

Lemma finite_fadd (a b : fp) : finite a -> finite b -> finite (fadd a b).
Proof. intros [x ->] [y ->]; apply finite_Fin. Qed.

Lemma finite_fmul (a b : fp) : finite a -> finite b -> finite (fmul a b).
Proof. intros [x ->] [y ->]; apply finite_Fin. Qed.

Lemma finite_fsub (a b : fp) : finite a -> finite b -> finite (fsub a b).
Proof. intros [x ->] [y ->]; apply finite_Fin. Qed.

Lemma finite_not_inf (a : fp) : finite a -> isinf a = false.
Proof. now intros [x ->]. Qed.

Lemma finite_fold (l : list fp) (a : fp) :
  Forall finite l -> finite a -> finite (fold_left fadd l a).
Proof.
  revert a; induction l as [|x l IH]; intros a Hl Ha; simpl; [assumption|].
  inversion Hl; subst; apply IH; [assumption|now apply finite_fadd].
Qed.

Lemma finite_sum_to (n : N) (f : N -> fp) :
  (forall i, finite (f i)) -> finite (sum_to n f).
Proof.
  intros H; apply finite_fold; [|apply finite_Fin].
  apply Forall_forall; intros x Hx; apply in_map_iff in Hx.
  destruct Hx as (i & <- & _); apply H.
Qed.

Lemma finite_sum (v : list fp) : Forall finite v -> finite (sum v).
Proof. intros H; apply finite_fold; [assumption|apply finite_Fin]. Qed.

Lemma finite_quadratic_form (gp : GaussianProcess) (i : N) :
  real_matrix (labels gp) -> real_matrix (core gp) ->
  finite (quadratic_form gp i).
Proof.
  intros HY HC; unfold quadratic_form.
  apply finite_sum_to; intros b; apply finite_fmul; [|apply HY].
  apply finite_sum_to; intros a; apply finite_fmul; [apply HY|apply HC].
Qed.

Lemma finite_data_fit (gp : GaussianProcess) :
  real_matrix (labels gp) -> real_matrix (core gp) ->
  Forall finite (data_fit gp).
Proof.
  intros HY HC; unfold data_fit; apply Forall_forall; intros x Hx.
  apply in_map_iff in Hx; destruct Hx as (i & <- & _).
  apply finite_fmul; [apply finite_Fin|now apply finite_quadratic_form].
Qed.

Lemma real_of_rows (r c : N) (l : list (list fp)) :
  Forall (Forall finite) l -> real_matrix (of_rows r c l).
Proof.
  intros H i j; simpl.
  destruct (nth_in_or_default (N.to_nat i) l []) as [Hi | ->].
  - assert (Hrow : Forall finite (nth (N.to_nat i) l []))
      by (eapply Forall_forall in H; eassumption).
    destruct (nth_in_or_default (N.to_nat j) (nth (N.to_nat i) l []) (Fin 0))
      as [Hj | ->]; [|apply finite_Fin].
    eapply Forall_forall in Hrow; eassumption.
  - destruct (N.to_nat j); apply finite_Fin.
Qed.

Lemma two_pi_pos : 0 < 2 * PI.
Proof. pose proof PI_RGT_0; lra. Qed.

Lemma plain_constant_eq (n : N) :
  plain_constant n = Fin (/ Rpower (2 * PI) (IZR (Z.of_N n) / 2)).
Proof.
  unfold plain_constant, M_PI, of_N, of_Z; simpl.
  rewrite literal_2_0, literal_1_0.
  rewrite (Reqb_neq 2 0) by lra.
  rewrite (Rltb_lt 0 (2 * PI)) by apply two_pi_pos.
  assert (H : 0 < Rpower (2 * PI) (IZR (Z.of_N n) / 2)) by apply exp_pos.
  rewrite Reqb_neq by lra.
  f_equal; unfold Rdiv; lra.
Qed.

Lemma log_constant_eq (n : N) :
  log_constant n = Fin (- (IZR (Z.of_N n) / 2) * ln (2 * PI)).
Proof.
  unfold log_constant, M_PI, of_Z; simpl.
  rewrite literal_2_0.
  rewrite (Reqb_neq 2 0) by lra.
  rewrite (Rltb_lt 0 (2 * PI)) by apply two_pi_pos; simpl.
  rewrite opp_IZR; f_equal; unfold Rdiv; ring.
Qed.

Lemma plain_penalty_eq (d : R) :
  0 < d -> plain_penalty (Fin d) = Fin (/ sqrt d).
Proof.
  intros Hd; unfold plain_penalty; simpl.
  rewrite literal_1_0, Rleb_le by lra.
  pose proof (sqrt_lt_R0 d Hd).
  rewrite Reqb_neq by lra.
  f_equal; unfold Rdiv; lra.
Qed.

Section Penalties.
Context {limits : numeric_limits.t}.
Hypothesis limits_wf : numeric_limits.wf limits.

Lemma plain_penalty_clamped_eq :
  plain_penalty_clamped = Fin (/ sqrt numeric_limits.min).
Proof.
  unfold plain_penalty_clamped; fold (plain_penalty (Fin numeric_limits.min)).
  apply plain_penalty_eq, limits_wf.
Qed.

Lemma log_penalty_lower_eq :
  log_penalty_lower = Fin (- / 2 * ln numeric_limits.min).
Proof.
  destruct limits_wf as (Hmin & _).
  unfold log_penalty_lower; simpl.
  now rewrite Rltb_lt, literal_m0_5 by assumption.
Qed.

Lemma log_penalty_upper_eq :
  log_penalty_upper = Fin (- / 2 * ln numeric_limits.max).
Proof.
  destruct limits_wf as (Hmin & Heps & Heps1 & Hmax).
  unfold log_penalty_upper; simpl.
  now rewrite Rltb_lt, literal_m0_5 by lra.
Qed.

(** At or below [min], negative values included, the penalty is the lower
    clamp. *)
Lemma log_penalty_below (d : fp) :
  fleb d (Fin numeric_limits.min) = true -> log_penalty d = log_penalty_lower.
Proof. intros H; unfold log_penalty; now rewrite H. Qed.

Lemma log_penalty_between (d : R) :
  numeric_limits.min < d <= numeric_limits.max ->
  log_penalty (Fin d) = Fin (- / 2 * ln d).
Proof.
  destruct limits_wf as (Hmin & _); intros [Hlo Hhi].
  unfold log_penalty; simpl.
  rewrite Rleb_gt, Rltb_ge by assumption.
  now rewrite Rltb_lt, literal_m0_5 by lra.
Qed.

(** The penalty of the log-likelihood is finite, unless the determinant is
    not a number. *)
Lemma finite_log_penalty (d : fp) :
  isnan d = false -> finite (log_penalty d).
Proof.
  destruct limits_wf as (Hmin & Heps & Heps1 & Hmax); intros Hd.
  unfold log_penalty.
  destruct (fleb d _) eqn:E1; [rewrite log_penalty_lower_eq; apply finite_Fin|].
  destruct (fltb _ d) eqn:E2; [rewrite log_penalty_upper_eq; apply finite_Fin|].
  destruct d as [x| | |]; simpl in *; try discriminate.
  apply Rleb_false in E1.
  rewrite Rltb_lt by lra; apply finite_Fin.
Qed.

Lemma finite_log_value (gp : GaussianProcess) :
  real_matrix (labels gp) -> real_matrix (core gp) ->
  isnan (determinant gp) = false ->
  Forall finite (log_value gp).
Proof.
  intros HY HC Hd; unfold log_value, log_value_with.
  apply Forall_forall; intros x Hx; apply in_map_iff in Hx.
  destruct Hx as (e & <- & He).
  pose proof (finite_data_fit gp HY HC) as Hdf.
  eapply Forall_forall in Hdf; [|eassumption].
  apply finite_fadd; [assumption|].
  apply finite_fadd; [now apply finite_log_penalty|].
  rewrite log_constant_eq; apply finite_Fin.
Qed.

(** In the arithmetic of the model, on real labels and a real core matrix
    the log-likelihood is returned, whatever the determinant, unless it is
    not a number. *)
Lemma log_operator_real (gp : GaussianProcess) :
  shapes_fit gp = true ->
  real_matrix (labels gp) -> real_matrix (core gp) ->
  isnan (determinant gp) = false ->
  GaussianLogLikelihood.operator gp = Return (log_value gp).
Proof.
  intros Hs HY HC Hd; rewrite log_operator_eq, Hs.
  rewrite finite_not_inf; [reflexivity|].
  apply finite_sum, finite_log_value; assumption.
Qed.

End Penalties.

(** ** The kinds of failure *)

Lemma fails_with_Throw {A : Type} (out : list diagnostics) (e : exception)
  (k : error_kind) :
  has_kind e k -> fails_with (@Throw A out e) k.
Proof. intros H; exists out, e; split; [reflexivity|assumption]. Qed.

Lemma fails_with_inv {A : Type} (out : list diagnostics) (e : exception)
  (k : error_kind) :
  fails_with (@Throw A out e) k -> has_kind e k.
Proof. intros (out' & e' & [= <- <-] & H); exact H. Qed.

Lemma Return_does_not_fail {A : Type} (a : A) (k : error_kind) :
  ~ fails_with (Return a) k.
Proof. intros (out & e & H & _); discriminate. Qed.

Lemma Undefined_does_not_fail {A : Type} (k : error_kind) :
  ~ fails_with (@Undefined A) k.
Proof. intros (out & e & H & _); discriminate. Qed.

Lemma infinite_is_not_dimension : ~ has_kind likelihood_infinite DimensionError.
Proof. intros H; inversion H. Qed.

Lemma determinant_is_not_not_implemented (d : fp) (name : string) :
  ~ has_kind (determinant_negative d) (NotImplemented name).
Proof. intros H; inversion H. Qed.

Lemma dimension_is_not_numerical : ~ has_kind wrong_dimension NumericalError.
Proof. intros H; inversion H. Qed.

(** ** The scenario and its variations *)

Lemma real_scenario_labels : real_matrix (labels scenario).
Proof. apply real_of_rows; repeat constructor; apply finite_Fin. Qed.

Lemma real_scenario_core : real_matrix (core scenario).
Proof. apply real_of_rows; repeat constructor; apply finite_Fin. Qed.

(** ** The interface and its defaults *)

(** C9.  A call through the interface of an operation that the class of the
    object does not declare runs the default of [Likelihood], which throws
    "Likelihood: <operation> is not implemented.".  For [GaussianLikelihood]
    these are [GetParameterDerivatives], [GetValueAndParameterDerivatives] and
    [GetValueAndJacobian]; its [operator()] is its own and never fails with
    that error. *)
Theorem defaults_are_not_implemented
  (limits : numeric_limits.t) (gp : GaussianProcess) :
  (forall (c : dynamic_type) (op : operation),
      declares c op = false ->
      call c op gp = Throw [] (not_implemented (member_name op))
      /\ fails_with (call c op gp) (NotImplemented (member_name op)))
  /\ fails_with (call PlainLikelihood ParameterDerivatives gp)
       (NotImplemented "GetParameterDerivatives")
  /\ fails_with (call PlainLikelihood ValueAndParameterDerivatives gp)
       (NotImplemented "GetValueAndParameterDerivatives")
  /\ fails_with (call PlainLikelihood ValueAndJacobian gp)
       (NotImplemented "GetValueAndJacobian")
  /\ declares PlainLikelihood Evaluate = true
  /\ (forall name : string,
         ~ fails_with (call PlainLikelihood Evaluate gp) (NotImplemented name)).
Proof.
  assert (Hdefault : forall (c : dynamic_type) (op : operation),
             declares c op = false ->
             call c op gp = Throw [] (not_implemented (member_name op)))
    by (intros c op; destruct c, op; try discriminate; reflexivity).
  assert (Hkind : forall (c : dynamic_type) (op : operation),
             declares c op = false ->
             fails_with (call c op gp) (NotImplemented (member_name op))).
  { intros c op H; rewrite (Hdefault c op H).
    apply fails_with_Throw, kind_not_implemented. }
  repeat split.
  - now apply Hdefault.
  - now apply Hkind.
  - exact (Hkind PlainLikelihood ParameterDerivatives eq_refl).
  - exact (Hkind PlainLikelihood ValueAndParameterDerivatives eq_refl).
  - exact (Hkind PlainLikelihood ValueAndJacobian eq_refl).
  - intros name; simpl; rewrite plain_operator_eq.
    destruct (shapes_fit gp); [|apply Undefined_does_not_fail].
    destruct (fltb _ _).
    + intros H; apply fails_with_inv in H.
      exact (determinant_is_not_not_implemented _ _ H).
    + destruct (fleb _ _); apply Return_does_not_fail.
Qed.

Lemma defaults_are_not_implemented_witness :
  declares PlainLikelihood ValueAndJacobian = false
  /\ fails_with (@call x87 PlainLikelihood ValueAndJacobian scenario)
       (NotImplemented "GetValueAndJacobian").
Proof.
  split; [reflexivity|].
  apply (proj1 (defaults_are_not_implemented x87 scenario)
           PlainLikelihood ValueAndJacobian); reflexivity.
Defined.

(** ** The sign of the determinant *)

(** C1 (as amended).  When the determinant is below [-epsilon],
    [GaussianLikelihood::operator()] throws and reports the determinant.
    [GaussianLogLikelihood::operator()] has no test on the sign: such a
    determinant is below [min], the penalty is the lower clamp
    [-0.5 * log(min)], and the value is returned unless its sum is
    infinite. *)
Theorem determinant_below_minus_epsilon
  (limits : numeric_limits.t) (gp : GaussianProcess) :
  numeric_limits.wf limits ->
  shapes_fit gp = true ->
  fltb (determinant gp) (fneg (Fin numeric_limits.epsilon)) = true ->
  GaussianLikelihood.operator gp
  = Throw [] (determinant_negative (determinant gp))
  /\ fails_with (GaussianLikelihood.operator gp) NumericalError
  /\ log_penalty (determinant gp) = log_penalty_lower
  /\ GaussianLogLikelihood.operator gp
     = (if isinf (sum (log_value_with log_penalty_lower gp))
        then Throw [log_diagnostics gp] likelihood_infinite
        else Return (log_value_with log_penalty_lower gp)).
Proof.
  intros Hwf Hs Hd.
  assert (Hplain : GaussianLikelihood.operator gp
                   = Throw [] (determinant_negative (determinant gp)))
    by now rewrite plain_operator_eq, Hs, Hd.
  assert (Hlow : fleb (determinant gp) (Fin numeric_limits.min) = true).
  { destruct Hwf as (Hmin & Heps & _).
    destruct (determinant gp) as [x| | |]; simpl in *; try discriminate;
      try reflexivity.
    apply Rltb_true in Hd; apply Rleb_le; lra. }
  assert (Hcp : log_penalty (determinant gp) = log_penalty_lower)
    by now apply log_penalty_below.
  assert (Hval : log_value gp = log_value_with log_penalty_lower gp)
    by (unfold log_value; now rewrite Hcp).
  repeat split.
  - exact Hplain.
  - rewrite Hplain; apply fails_with_Throw, kind_determinant.
  - exact Hcp.
  - now rewrite log_operator_eq, Hs, Hval.
Qed.

Lemma scenario_minus_one_below_epsilon :
  fltb (determinant negative_determinant)
    (fneg (Fin (@numeric_limits.epsilon x87))) = true.
Proof.
  simpl; apply Rltb_lt; pose proof x87_epsilon_lt_1; lra.
Qed.

Lemma determinant_below_minus_epsilon_witness :
  @GaussianLikelihood.operator x87 negative_determinant
  = Throw [] (determinant_negative (Fin (-1)))
  /\ fails_with (@GaussianLikelihood.operator x87 negative_determinant)
       NumericalError
  /\ @log_penalty x87 (Fin (-1)) = @log_penalty_lower x87.
Proof.
  pose proof (determinant_below_minus_epsilon x87 negative_determinant
                x87_wf eq_refl scenario_minus_one_below_epsilon)
    as (H1 & H2 & H3 & _).
  split; [exact H1|]; split; [exact H2|exact H3].
Defined.

(** C1, as stated, fails on [GaussianLogLikelihood]: with the determinant -1,
    which is below [-epsilon], its [operator()] returns a value. *)
Lemma log_likelihood_accepts_negative_determinant :
  fltb (determinant negative_determinant)
    (fneg (Fin (@numeric_limits.epsilon x87))) = true
  /\ @GaussianLogLikelihood.operator x87 negative_determinant
     = Return (@log_value x87 negative_determinant).
Proof.
  split; [exact scenario_minus_one_below_epsilon|].
  apply log_operator_real;
    [exact x87_wf|reflexivity|apply real_scenario_labels
    |apply real_scenario_core|reflexivity].
Qed.

(** ** The test on the sum of the log-likelihood *)

Section InfiniteSum.
Context {limits : numeric_limits.t}.

Lemma after_dimension_test_Return {A : Type} (gp : GaussianProcess)
  (loop : outcome A) (a : A) :
  after_dimension_test gp loop = Return a -> loop = Return a.
Proof.
  unfold after_dimension_test.
  destruct (cols (kernel_derivatives gp) =? 0)%N; [discriminate|].
  destruct (negb _); [discriminate|trivial].
Qed.

Lemma log_operator_Return (gp : GaussianProcess) (v : VectorType) :
  GaussianLogLikelihood.operator gp = Return v ->
  shapes_fit gp = true /\ isinf (sum (log_value gp)) = false
  /\ v = log_value gp.
Proof.
  rewrite log_operator_eq.
  destruct (shapes_fit gp); [|discriminate].
  destruct (isinf _); [discriminate|].
  now intros [= <-].
Qed.

Lemma value_and_derivatives_Return (gp : GaussianProcess)
  (v g : VectorType) :
  GaussianLogLikelihood.GetValueAndParameterDerivatives gp = Return (v, g) ->
  shapes_fit gp = true /\ isinf (sum (log_value gp)) = false
  /\ v = log_value gp.
Proof.
  rewrite value_and_derivatives_eq.
  destruct (shapes_fit gp); [|discriminate].
  destruct (isinf _); [discriminate|].
  destruct (product _ _) as [alpha| |]; cbn [bind]; try discriminate.
  intros H; apply after_dimension_test_Return in H.
  destruct (mapM _ _); cbn [bind] in H; try discriminate.
  now injection H as <- _.
Qed.

Lemma value_and_jacobian_Return (gp : GaussianProcess)
  (v : VectorType) (J : MatrixType) :
  GaussianLogLikelihood.GetValueAndJacobian gp = Return (v, J) ->
  shapes_fit gp = true /\ isinf (sum (log_value gp)) = false
  /\ v = log_value gp /\ jacobian_rows gp = Return J.
Proof.
  rewrite value_and_jacobian_eq.
  destruct (shapes_fit gp); [|discriminate].
  destruct (isinf _); [discriminate|].
  intros H; apply after_dimension_test_Return in H.
  destruct (jacobian_rows gp); cbn [bind] in H; try discriminate.
  now injection H as <- <-.
Qed.

(** C3 (as amended).  The three operations that compute the log-likelihood
    test its sum with [std::isinf]: a vector they return has a sum that is
    not infinite, and when the sum of [dataFit + cp + ct] is +Inf or -Inf
    each of them throws "likelihood is infinite".  A sum that is NaN passes
    the test: [operator()] returns the vector. *)
Theorem infinite_sum_is_rejected (gp : GaussianProcess) :
  (forall v, GaussianLogLikelihood.operator gp = Return v ->
             isinf (sum v) = false)
  /\ (forall v g,
         GaussianLogLikelihood.GetValueAndParameterDerivatives gp
         = Return (v, g) ->
         isinf (sum v) = false)
  /\ (forall v J,
         GaussianLogLikelihood.GetValueAndJacobian gp = Return (v, J) ->
         isinf (sum v) = false)
  /\ (shapes_fit gp = true -> isinf (sum (log_value gp)) = true ->
      fails_with (GaussianLogLikelihood.operator gp) NumericalError
      /\ fails_with (GaussianLogLikelihood.GetValueAndParameterDerivatives gp)
           NumericalError
      /\ fails_with (GaussianLogLikelihood.GetValueAndJacobian gp)
           NumericalError)
  /\ (shapes_fit gp = true -> isnan (sum (log_value gp)) = true ->
      GaussianLogLikelihood.operator gp = Return (log_value gp)).
Proof.
  split; [|split; [|split; [|split]]].
  - intros v H; apply log_operator_Return in H as (_ & H & ->); exact H.
  - intros v g H.
    apply value_and_derivatives_Return in H as (_ & H & ->); exact H.
  - intros v J H.
    apply value_and_jacobian_Return in H as (_ & H & -> & _); exact H.
  - intros Hs Hinf.
    rewrite log_operator_eq, value_and_derivatives_eq,
      value_and_jacobian_eq, Hs, Hinf.
    repeat split; apply fails_with_Throw, kind_infinite.
  - intros Hs Hnan; rewrite log_operator_eq, Hs.
    destruct (sum (log_value gp)); try discriminate; reflexivity.
Qed.

End InfiniteSum.

Lemma infinite_labels_sum :
  isinf (sum (@log_value x87 infinite_labels)) = true.
Proof.
  unfold log_value, log_value_with.
  pose proof (@finite_log_penalty x87 x87_wf (determinant infinite_labels)
                eq_refl) as [cp Hcp].
  rewrite Hcp, log_constant_eq.
  unfold data_fit, quadratic_form, sum_to, iota; simpl.
  rewrite !(Reqb_neq 1 0) by lra; rewrite !(Rltb_ge 1 0) by lra; simpl.
  rewrite literal_m0_5, Reqb_neq, Rltb_lt by lra; reflexivity.
Qed.

Lemma infinite_sum_is_rejected_witness :
  fails_with (@GaussianLogLikelihood.operator x87 infinite_labels)
    NumericalError
  /\ fails_with
       (@GaussianLogLikelihood.GetValueAndParameterDerivatives x87
          infinite_labels) NumericalError
  /\ fails_with (@GaussianLogLikelihood.GetValueAndJacobian x87 infinite_labels)
       NumericalError.
Proof.
  exact (proj1 (proj2 (proj2 (proj2
           (@infinite_sum_is_rejected x87 infinite_labels))))
           eq_refl infinite_labels_sum).
Defined.

(** C3, as stated, fails on NaN: with a determinant that is not a number the
    sum of the log-likelihood is NaN, [std::isinf] is false of it, and
    [operator()] returns the vector. *)
Lemma nan_sum_is_returned :
  isnan (sum (@log_value x87 nan_determinant)) = true
  /\ @GaussianLogLikelihood.operator x87 nan_determinant
     = Return (@log_value x87 nan_determinant).
Proof.
  assert (H : isnan (sum (@log_value x87 nan_determinant)) = true).
  { unfold log_value, log_value_with; rewrite log_constant_eq.
    unfold data_fit, quadratic_form, sum_to, iota; simpl; reflexivity. }
  split; [exact H|].
  rewrite log_operator_eq.
  change (shapes_fit nan_determinant) with true; cbv iota.
  destruct (sum (@log_value x87 nan_determinant)); try discriminate.
  reflexivity.
Qed.

(** ** Value and derivatives in one call *)

Lemma not_a_multiple (r c np : N) :
  (r mod c <> 0)%N -> (r =? np * c)%N = false.
Proof.
  intros H; apply N.eqb_neq; intros ->; apply H.
  apply N.Div0.mod_mul.
Qed.

Lemma dimension_test_fails {A : Type} (gp : GaussianProcess)
  (loop : outcome A) :
  cols (kernel_derivatives gp) <> 0%N ->
  (rows (kernel_derivatives gp) mod cols (kernel_derivatives gp) <> 0)%N ->
  after_dimension_test gp loop = Throw [] wrong_dimension.
Proof.
  intros Hc Hr; unfold after_dimension_test.
  rewrite (proj2 (N.eqb_neq _ _) Hc).
  now rewrite not_a_multiple.
Qed.

Section Combined.
Context {limits : numeric_limits.t}.

(** C7 (as amended).  [GetValueAndParameterDerivatives] is [operator()]
    followed by [GetParameterDerivatives]: it returns the pair of their
    results, and fails as the first of them that fails.  When the sum of the
    value is +Inf or -Inf and the shape of D is wrong, the error reported is
    "likelihood is infinite", the one of the value.  A sum that is NaN is no
    failure of the value: with a wrong shape of D the error reported is then
    the one on the shape. *)
Theorem value_and_derivatives_is_the_pair (gp : GaussianProcess) :
  GaussianLogLikelihood.GetValueAndParameterDerivatives gp
  = (v <- GaussianLogLikelihood.operator gp ;;
     g <- GaussianLogLikelihood.GetParameterDerivatives gp ;;
     Return (v, g))
  /\ (forall v g,
         GaussianLogLikelihood.operator gp = Return v ->
         GaussianLogLikelihood.GetParameterDerivatives gp = Return g ->
         GaussianLogLikelihood.GetValueAndParameterDerivatives gp
         = Return (v, g))
  /\ (forall out e,
         GaussianLogLikelihood.operator gp = Throw out e ->
         GaussianLogLikelihood.GetValueAndParameterDerivatives gp
         = Throw out e)
  /\ (shapes_fit gp = true ->
      isinf (sum (log_value gp)) = true ->
      (rows (kernel_derivatives gp) mod cols (kernel_derivatives gp) <> 0)%N ->
      GaussianLogLikelihood.GetValueAndParameterDerivatives gp
      = Throw [log_diagnostics gp] likelihood_infinite
      /\ fails_with (GaussianLogLikelihood.GetValueAndParameterDerivatives gp)
           NumericalError
      /\ ~ fails_with (GaussianLogLikelihood.GetValueAndParameterDerivatives gp)
             DimensionError)
  /\ (shapes_fit gp = true ->
      isnan (sum (log_value gp)) = true ->
      cols (kernel_derivatives gp) <> 0%N ->
      (rows (kernel_derivatives gp) mod cols (kernel_derivatives gp) <> 0)%N ->
      GaussianLogLikelihood.GetValueAndParameterDerivatives gp
      = Throw [] wrong_dimension
      /\ fails_with (GaussianLogLikelihood.GetValueAndParameterDerivatives gp)
           DimensionError
      /\ ~ fails_with (GaussianLogLikelihood.GetValueAndParameterDerivatives gp)
             NumericalError).
Proof.
  assert (E : GaussianLogLikelihood.GetValueAndParameterDerivatives gp
              = (v <- GaussianLogLikelihood.operator gp ;;
                 g <- GaussianLogLikelihood.GetParameterDerivatives gp ;;
                 Return (v, g))).
  { rewrite value_and_derivatives_eq, log_operator_eq,
      parameter_derivatives_eq.
    destruct (shapes_fit gp); [|reflexivity].
    destruct (isinf _); [reflexivity|]; cbn [bind].
    destruct (product _ _) as [alpha| |]; cbn [bind]; try reflexivity.
    unfold after_dimension_test.
    destruct (cols (kernel_derivatives gp) =? 0)%N; [reflexivity|].
    destruct (negb _); reflexivity. }
  split; [exact E|]; split; [|split; [|split]].
  - intros v g Hv Hg; now rewrite E, Hv, Hg.
  - intros out e Hv; now rewrite E, Hv.
  - intros Hs Hinf _.
    rewrite value_and_derivatives_eq, Hs, Hinf.
    split; [reflexivity|]; split; [apply fails_with_Throw, kind_infinite|].
    intros H; apply fails_with_inv in H.
    exact (infinite_is_not_dimension H).
  - intros Hs Hnan Hc Hr.
    assert (Hinf : isinf (sum (log_value gp)) = false)
      by (destruct (sum (log_value gp)); try discriminate; reflexivity).
    assert (Hfit : (cols (core gp) =? rows (labels gp))%N = true).
    { unfold shapes_fit in Hs; apply andb_prop in Hs; tauto. }
    assert (E' : GaussianLogLikelihood.GetValueAndParameterDerivatives gp
                 = Throw [] wrong_dimension).
    { rewrite value_and_derivatives_eq, Hs, Hinf; unfold product.
      rewrite Hfit; cbn [bind]; now apply dimension_test_fails. }
    rewrite E'.
    split; [reflexivity|]; split; [apply fails_with_Throw, kind_dimension|].
    intros H; apply fails_with_inv in H.
    exact (dimension_is_not_numerical H).
Qed.

End Combined.

Lemma infinite_labels_bad_shape :
  (rows (kernel_derivatives infinite_labels)
   mod cols (kernel_derivatives infinite_labels) <> 0)%N.
Proof. discriminate. Qed.

Lemma value_and_derivatives_is_the_pair_witness :
  (rows (kernel_derivatives infinite_labels)
   mod cols (kernel_derivatives infinite_labels) <> 0)%N
  /\ @GaussianLogLikelihood.GetValueAndParameterDerivatives x87 infinite_labels
     = Throw [@log_diagnostics x87 infinite_labels] likelihood_infinite
  /\ fails_with
       (@GaussianLogLikelihood.GetValueAndParameterDerivatives x87
          infinite_labels) NumericalError.
Proof.
  split; [exact infinite_labels_bad_shape|].
  destruct (proj1 (proj2 (proj2 (proj2
              (@value_and_derivatives_is_the_pair x87 infinite_labels))))
              eq_refl infinite_labels_sum infinite_labels_bad_shape)
    as (H1 & H2 & _).
  split; [exact H1|exact H2].
Defined.

(** C7, as stated, fails when the value is NaN: with a determinant that is
    not a number the sum of the value is NaN, which is not finite; D has 3
    rows and 2 columns; and the error reported is the one on the shape of D,
    not a failure of the value. *)
Lemma nan_value_reports_the_shape :
  isnan (sum (@log_value x87 nan_odd_derivatives)) = true
  /\ (rows (kernel_derivatives nan_odd_derivatives)
      mod cols (kernel_derivatives nan_odd_derivatives) <> 0)%N
  /\ @GaussianLogLikelihood.GetValueAndParameterDerivatives x87
       nan_odd_derivatives
     = Throw [] wrong_dimension
  /\ fails_with
       (@GaussianLogLikelihood.GetValueAndParameterDerivatives x87
          nan_odd_derivatives) DimensionError
  /\ ~ fails_with
         (@GaussianLogLikelihood.GetValueAndParameterDerivatives x87
            nan_odd_derivatives) NumericalError.
Proof.
  assert (H : sum (@log_value x87 nan_odd_derivatives) = NaN).
  { unfold log_value, log_value_with; rewrite log_constant_eq.
    unfold data_fit, quadratic_form, sum_to, iota; simpl; reflexivity. }
  assert (E : @GaussianLogLikelihood.GetValueAndParameterDerivatives x87
                nan_odd_derivatives
              = Throw [] wrong_dimension).
  { rewrite value_and_derivatives_eq.
    change (shapes_fit nan_odd_derivatives) with true; cbv iota.
    rewrite H; cbn [isinf]; unfold product.
    change (cols (core nan_odd_derivatives)
            =? rows (labels nan_odd_derivatives))%N with true.
    cbn [bind]; apply dimension_test_fails; discriminate. }
  split; [now rewrite H|]; split; [discriminate|]; split; [exact E|].
  rewrite E; split; [apply fails_with_Throw, kind_dimension|].
  intros F; apply fails_with_inv in F.
  exact (dimension_is_not_numerical F).
Qed.

(** ** The guard on the shape of D *)

Section DimensionGuard.
Context {limits : numeric_limits.t}.

(** C6 (as amended).  Let D have at least one column and a row count that
    is not a multiple of its column count.  [GetParameterDerivatives]
    throws "wrong dimension of derivative kernel matrix" as soon as [C * Y]
    is well formed.  [GetValueAndParameterDerivatives] and
    [GetValueAndJacobian] compute the value first: they throw the same
    error when [operator()] returns, and the error of [operator()] when it
    throws.  None of this depends on the coefficients of D. *)
Theorem inconsistent_shape_is_rejected (gp : GaussianProcess) :
  cols (kernel_derivatives gp) <> 0%N ->
  (rows (kernel_derivatives gp) mod cols (kernel_derivatives gp) <> 0)%N ->
  (cols (core gp) = rows (labels gp) ->
   GaussianLogLikelihood.GetParameterDerivatives gp
   = Throw [] wrong_dimension
   /\ fails_with (GaussianLogLikelihood.GetParameterDerivatives gp)
        DimensionError)
  /\ (forall v,
         GaussianLogLikelihood.operator gp = Return v ->
         GaussianLogLikelihood.GetValueAndParameterDerivatives gp
         = Throw [] wrong_dimension
         /\ GaussianLogLikelihood.GetValueAndJacobian gp
            = Throw [] wrong_dimension
         /\ fails_with
              (GaussianLogLikelihood.GetValueAndParameterDerivatives gp)
              DimensionError
         /\ fails_with (GaussianLogLikelihood.GetValueAndJacobian gp)
              DimensionError)
  /\ (forall out e,
         GaussianLogLikelihood.operator gp = Throw out e ->
         GaussianLogLikelihood.GetValueAndParameterDerivatives gp
         = Throw out e
         /\ GaussianLogLikelihood.GetValueAndJacobian gp = Throw out e)
  /\ (forall D' : MatrixType,
         rows D' = rows (kernel_derivatives gp) ->
         cols D' = cols (kernel_derivatives gp) ->
         GaussianLogLikelihood.GetParameterDerivatives (with_derivatives D' gp)
         = GaussianLogLikelihood.GetParameterDerivatives gp
         /\ GaussianLogLikelihood.GetValueAndParameterDerivatives
              (with_derivatives D' gp)
            = GaussianLogLikelihood.GetValueAndParameterDerivatives gp
         /\ GaussianLogLikelihood.GetValueAndJacobian (with_derivatives D' gp)
            = GaussianLogLikelihood.GetValueAndJacobian gp).
Proof.
  intros Hc Hr; split; [|split; [|split]].
  - intros Hfit.
    assert (E : GaussianLogLikelihood.GetParameterDerivatives gp
                = Throw [] wrong_dimension).
    { rewrite parameter_derivatives_eq; unfold product.
      rewrite (proj2 (N.eqb_eq _ _) Hfit); cbn [bind].
      now apply dimension_test_fails. }
    split; [exact E|].
    rewrite E; apply fails_with_Throw, kind_dimension.
  - intros v Hv; apply log_operator_Return in Hv as (Hs & Hinf & _).
    assert (Hfit : (cols (core gp) =? rows (labels gp))%N = true).
    { unfold shapes_fit in Hs; apply andb_prop in Hs; tauto. }
    assert (E1 : GaussianLogLikelihood.GetValueAndParameterDerivatives gp
                 = Throw [] wrong_dimension).
    { rewrite value_and_derivatives_eq, Hs, Hinf; unfold product.
      rewrite Hfit; cbn [bind]; now apply dimension_test_fails. }
    assert (E2 : GaussianLogLikelihood.GetValueAndJacobian gp
                 = Throw [] wrong_dimension).
    { rewrite value_and_jacobian_eq, Hs, Hinf.
      now apply dimension_test_fails. }
    rewrite E1, E2; repeat split;
      apply fails_with_Throw, kind_dimension.
  - intros out e; rewrite log_operator_eq, value_and_derivatives_eq,
      value_and_jacobian_eq.
    destruct (shapes_fit gp); [|discriminate].
    destruct (isinf _); [|discriminate].
    intros [= <- <-]; split; reflexivity.
  - intros D' Hrows Hcols.
    assert (Hc' : cols (kernel_derivatives (with_derivatives D' gp)) <> 0%N)
      by (cbn [kernel_derivatives with_derivatives
                 ComputeDerivativeKernelMatrix];
          fold (kernel_derivatives gp); congruence).
    assert (Hr' : (rows (kernel_derivatives (with_derivatives D' gp))
                   mod cols (kernel_derivatives (with_derivatives D' gp))
                   <> 0)%N)
      by (cbn [kernel_derivatives with_derivatives
                 ComputeDerivativeKernelMatrix];
          fold (kernel_derivatives gp); congruence).
    rewrite !parameter_derivatives_eq, !value_and_derivatives_eq,
      !value_and_jacobian_eq.
    change (shapes_fit (with_derivatives D' gp)) with (shapes_fit gp).
    change (log_value (with_derivatives D' gp)) with (log_value gp).
    change (log_diagnostics (with_derivatives D' gp))
      with (log_diagnostics gp).
    change (core (with_derivatives D' gp)) with (core gp).
    change (labels (with_derivatives D' gp)) with (labels gp).
    repeat split.
    + destruct (product (core gp) (labels gp)); cbn [bind]; try reflexivity.
      now rewrite !dimension_test_fails.
    + destruct (shapes_fit gp); [|reflexivity].
      destruct (isinf _); [reflexivity|].
      destruct (product (core gp) (labels gp)); cbn [bind]; try reflexivity.
      now rewrite !dimension_test_fails.
    + destruct (shapes_fit gp); [|reflexivity].
      destruct (isinf _); [reflexivity|].
      now rewrite !dimension_test_fails.
Qed.

End DimensionGuard.

Lemma odd_derivatives_value :
  @GaussianLogLikelihood.operator x87 odd_derivatives
  = Return (@log_value x87 odd_derivatives).
Proof.
  apply log_operator_real;
    [exact x87_wf|reflexivity|apply real_scenario_labels
    |apply real_scenario_core|reflexivity].
Qed.

Lemma inconsistent_shape_is_rejected_witness :
  fails_with (GaussianLogLikelihood.GetParameterDerivatives odd_derivatives)
    DimensionError
  /\ fails_with
       (@GaussianLogLikelihood.GetValueAndParameterDerivatives x87
          odd_derivatives) DimensionError
  /\ fails_with (@GaussianLogLikelihood.GetValueAndJacobian x87 odd_derivatives)
       DimensionError.
Proof.
  assert (Hc : cols (kernel_derivatives odd_derivatives) <> 0%N)
    by discriminate.
  assert (Hr : (rows (kernel_derivatives odd_derivatives)
                mod cols (kernel_derivatives odd_derivatives) <> 0)%N)
    by discriminate.
  destruct (@inconsistent_shape_is_rejected x87 odd_derivatives Hc Hr)
    as (H1 & H2 & _ & _).
  split; [exact (proj2 (H1 eq_refl))|].
  destruct (H2 _ odd_derivatives_value) as (_ & _ & H3 & H4).
  split; assumption.
Defined.

(** C6, as stated, fails on [GetValueAndJacobian] when the value is infinite:
    D has 3 rows and 2 columns, and the error is "likelihood is infinite",
    not the one on the shape of D.  It also fails when D has rows and no
    column: [D.rows()/D.cols()] divides by zero and nothing is thrown. *)
Lemma infinite_value_hides_bad_shape :
  ((rows (kernel_derivatives infinite_labels)
    mod cols (kernel_derivatives infinite_labels) <> 0)%N
   /\ fails_with
        (@GaussianLogLikelihood.GetValueAndJacobian x87 infinite_labels)
        NumericalError
   /\ ~ fails_with
          (@GaussianLogLikelihood.GetValueAndJacobian x87 infinite_labels)
          DimensionError)
  /\ ((rows (kernel_derivatives no_column)
       mod cols (kernel_derivatives no_column) <> 0)%N
      /\ GaussianLogLikelihood.GetParameterDerivatives no_column = Undefined
      /\ ~ fails_with (GaussianLogLikelihood.GetParameterDerivatives no_column)
             DimensionError).
Proof.
  split.
  - split; [exact infinite_labels_bad_shape|].
    rewrite value_and_jacobian_eq, infinite_labels_sum.
    change (shapes_fit infinite_labels) with true; cbv iota.
    split; [apply fails_with_Throw, kind_infinite|].
    intros H; apply fails_with_inv in H.
    exact (infinite_is_not_dimension H).
  - assert (E : GaussianLogLikelihood.GetParameterDerivatives no_column
                = Undefined)
      by (rewrite parameter_derivatives_eq; reflexivity).
    split; [discriminate|]; split; [exact E|].
    rewrite E; apply Undefined_does_not_fail.
Qed.

(** ** The plain likelihood *)








(** The sign of a component: the exponential, the penalty and the constant
    are not negative, and neither is a product of such values. *)
Lemma not_negative_fexp (x : fp) : not_negative (fexp x).
Proof.
  destruct x as [e| | |]; unfold not_negative; simpl; trivial.
  - apply Rltb_ge; left; apply exp_pos.
  - apply Rltb_ge; lra.
Qed.

Lemma not_negative_fmul (a b : fp) :
  not_negative a -> not_negative b -> not_negative (fmul a b).
Proof.
  unfold not_negative.
  destruct a as [x| | |], b as [y| | |]; simpl; intros Ha Hb;
    try discriminate; try reflexivity.
  - apply Rltb_false in Ha; apply Rltb_false in Hb.
    apply Rltb_ge, Rmult_le_pos; assumption.
  - destruct (Reqb x 0); [reflexivity|now rewrite Ha].
  - destruct (Reqb y 0); [reflexivity|now rewrite Hb].
Qed.

Lemma not_negative_constant (n : N) : not_negative (plain_constant n).
Proof.
  rewrite plain_constant_eq; unfold not_negative; simpl.
  apply Rltb_ge; left; apply Rinv_0_lt_compat, exp_pos.
Qed.

Lemma not_negative_plain_value (cp : fp) (gp : GaussianProcess) :
  not_negative cp -> Forall not_negative (plain_value cp gp).
Proof.
  intros Hcp; unfold plain_value.
  apply Forall_forall; intros x Hx; apply in_map_iff in Hx.
  destruct Hx as (y & <- & Hy); apply in_map_iff in Hy.
  destruct Hy as (z & <- & _).
  apply not_negative_fmul; [|apply not_negative_constant].
  apply not_negative_fmul; [apply not_negative_fexp|exact Hcp].
Qed.

(** The logarithm of a value that is not negative is NaN only if the value
    is. *)
Lemma flog_not_negative (x : fp) :
  not_negative x -> isnan x = false -> isnan (flog x) = false.
Proof.
  unfold not_negative; destruct x as [r| | |]; simpl; try discriminate;
    trivial.
  intros Hr _; apply Rltb_false in Hr.
  destruct (Rltb 0 r) eqn:E; [reflexivity|].
  apply Rltb_false in E.
  rewrite (proj2 (Reqb_true r 0)) by lra; reflexivity.
Qed.


Section PlainLikelihood.
Context {limits : numeric_limits.t}.
Hypothesis limits_wf : numeric_limits.wf limits.


Lemma plain_operator_direct (gp : GaussianProcess) (d : R) :
  shapes_fit gp = true -> determinant gp = Fin d -> 0 < d ->
  GaussianLikelihood.operator gp
  = Return (plain_value (plain_penalty (Fin d)) gp).
Proof.
  destruct limits_wf as (Hmin & Heps & _).
  intros Hs Hd Hpos; rewrite plain_operator_eq, Hs, Hd; simpl.
  now rewrite Rltb_ge, Rleb_gt by lra.
Qed.

(** The penalty of [GaussianLikelihood::operator()], once the determinant
    has passed the test on its sign, is not negative. *)
Lemma not_negative_penalty (d : fp) :
  fltb d (fneg (Fin numeric_limits.epsilon)) = false ->
  not_negative
    (if fleb d (Fin 0) then plain_penalty_clamped else plain_penalty d).
Proof.
  intros Hd; destruct (fleb d (Fin 0)) eqn:E.
  - rewrite (plain_penalty_clamped_eq limits_wf); unfold not_negative; simpl.
    apply Rltb_ge; left; apply Rinv_0_lt_compat, sqrt_lt_R0, limits_wf.
  - destruct d as [x| | |].
    + simpl in E; apply Rleb_false in E.
      rewrite plain_penalty_eq by assumption; unfold not_negative; simpl.
      apply Rltb_ge; left; now apply Rinv_0_lt_compat, sqrt_lt_R0.
    + unfold not_negative, plain_penalty; simpl; apply Rltb_ge; lra.
    + discriminate.
    + reflexivity.
Qed.

End PlainLikelihood.

Section PlainValues.
Context {limits : numeric_limits.t}.


(** C10 (as amended).  Whatever [GaussianLikelihood::operator()] returns,
    [Y' C Y] was well formed, the determinant was not below [-epsilon], and
    no component of the result is negative: each is a nonnegative number,
    +Inf or NaN, the product of an exponential, the penalty and the constant.
    The logarithm of a component is NaN only if the component is. *)
Theorem plain_likelihood_is_never_negative (gp : GaussianProcess)
  (v : VectorType) :
  numeric_limits.wf limits ->
  GaussianLikelihood.operator gp = Return v ->
  shapes_fit gp = true
  /\ fltb (determinant gp) (fneg (Fin numeric_limits.epsilon)) = false
  /\ Forall not_negative v
  /\ Forall (fun x => isnan x = false -> isnan (flog x) = false) v.
Proof.
  intros Hwf; rewrite plain_operator_eq.
  destruct (shapes_fit gp); [|discriminate].
  destruct (fltb _ _) eqn:Hd; [discriminate|].
  pose proof (not_negative_penalty Hwf _ Hd) as Hcp.
  intros Hv.
  assert (Hneg : Forall not_negative v).
  { destruct (fleb (determinant gp) (Fin 0)); injection Hv as <-;
      now apply not_negative_plain_value. }
  repeat split; try assumption.
  eapply Forall_impl; [|exact Hneg].
  intros x; apply flog_not_negative.
Qed.


End PlainValues.



Lemma scenario_plain_value :
  @GaussianLikelihood.operator x87 scenario
  = Return (plain_value (Fin (/ sqrt 1)) scenario).
Proof.
  rewrite <- (plain_penalty_eq 1) by lra.
  apply (plain_operator_direct x87_wf scenario 1); [reflexivity|reflexivity|lra].
Qed.

Lemma plain_likelihood_is_never_negative_witness :
  Forall not_negative (plain_value (Fin (/ sqrt 1)) scenario).
Proof.
  exact (proj1 (proj2 (proj2
           (@plain_likelihood_is_never_negative x87 scenario _ x87_wf
              scenario_plain_value)))).
Defined.

(** C10, as stated, fails on a determinant that is not a number: the test
    on its sign does not reject it, [operator()] returns, and the component
    returned is NaN, which is not nonnegative.  With an infinite determinant
    the penalty [1/sqrt(d)] is 0 and so is the component returned: it is not
    strictly positive. *)
Lemma nan_determinant_is_not_nonnegative :
  (@GaussianLikelihood.operator x87 nan_determinant = Return [NaN]
   /\ fleb (Fin 0) NaN = false
   /\ fleb (fneg (Fin (@numeric_limits.epsilon x87)))
        (determinant nan_determinant) = false)
  /\ (@GaussianLikelihood.operator x87 infinite_determinant = Return [Fin 0]
      /\ ~ positive (Fin 0)).
Proof.
  split; [split; [|split; reflexivity]|split].
  - rewrite plain_operator_eq.
    change (shapes_fit nan_determinant) with true.
    change (determinant nan_determinant) with NaN.
    cbn [fltb fleb fneg].
    unfold plain_value, plain_penalty, data_fit; cbn [fsqrt fdiv].
    change (iota (cols (labels nan_determinant))) with [0%N]; cbn [map].
    destruct (fexp _); reflexivity.
  - rewrite plain_operator_eq.
    change (shapes_fit infinite_determinant) with true.
    change (determinant infinite_determinant) with PInf.
    cbn [fltb fleb fneg].
    unfold plain_value, plain_penalty, data_fit; cbn [fsqrt fdiv].
    change (iota (cols (labels infinite_determinant))) with [0%N]; cbn [map].
    destruct (finite_quadratic_form infinite_determinant 0
                real_scenario_labels real_scenario_core) as [q ->].
    rewrite plain_constant_eq; simpl.
    do 3 f_equal; ring.
  - intros (r & [= <-] & Hr); lra.
Qed.

Lemma scenario_determinant_in_range :
  @numeric_limits.min x87 < 1 <= @numeric_limits.max x87.
Proof.
  simpl; pose proof x87_min_lt_epsilon; pose proof x87_epsilon_lt_1;
    pose proof x87_max_gt_1; lra.
Qed.




(** ** The derivatives *)

(** One term of the derivative, when the shapes fit: the trace of the
    product written as a double sum. *)
Lemma derivative_term_eq (alpha C D : MatrixType) (p : N) :
  rows alpha = cols D -> rows C = cols D -> cols C = cols D ->
  (p * cols D + cols D <= rows D)%N ->
  derivative_term alpha C D p
  = Return
      (fmul (Fin 0.5)
         (sum_to (cols D)
            (fun a =>
               sum_to (cols D)
                 (fun b =>
                    fmul
                      (fsub
                         (sum_to (cols alpha)
                            (fun c => fmul (coeff alpha a c) (coeff alpha b c)))
                         (coeff C a b))
                      (coeff D (p * cols D + b) a))))).
Proof.
  intros Ha Hr Hc Hp.
  unfold derivative_term, product, difference, block, trace.
  cbn [rows cols coeff adjoint bind].
  rewrite N.eqb_refl; cbn [rows cols coeff adjoint bind].
  rewrite Ha, Hr, Hc, !N.eqb_refl; cbn [andb rows cols coeff adjoint bind].
  rewrite (proj2 (N.leb_le _ _) Hp), N.leb_refl.
  cbn [andb rows cols coeff adjoint bind].
  rewrite N.eqb_refl; cbn [rows cols coeff adjoint bind].
  now rewrite N.min_id.
Qed.

(** A term depends on [alpha] through its shape and its coefficients. *)
Lemma derivative_term_ext (alpha alpha' C D : MatrixType) (p : N) :
  rows alpha = rows alpha' -> cols alpha = cols alpha' ->
  (forall i j, (j < cols alpha)%N -> coeff alpha i j = coeff alpha' i j) ->
  derivative_term alpha C D p = derivative_term alpha' C D p.
Proof.
  intros Hr Hc H.
  unfold derivative_term, product, difference, block, trace.
  cbn [rows cols coeff adjoint bind].
  rewrite !N.eqb_refl; cbn [rows cols coeff adjoint bind].
  rewrite <- Hr, <- Hc.
  destruct ((rows alpha =? rows C) && (rows alpha =? cols C))%N;
    cbn [rows cols coeff adjoint bind]; [|reflexivity].
  destruct ((p * cols D + cols D <=? rows D) && (0 + cols D <=? cols D))%N;
    cbn [rows cols coeff adjoint bind]; [|reflexivity].
  destruct (rows alpha =? cols D)%N;
    cbn [rows cols coeff adjoint bind]; [|reflexivity].
  do 2 f_equal.
  apply sum_to_ext; intros a _.
  apply sum_to_ext; intros b _.
  do 2 f_equal.
  apply sum_to_ext; intros c Hlt.
  now rewrite !H.
Qed.

Lemma num_params_of_multiple (gp : GaussianProcess) (p : N) :
  cols (kernel_derivatives gp) <> 0%N ->
  rows (kernel_derivatives gp) = (p * cols (kernel_derivatives gp))%N ->
  (p < 2 ^ 32)%N ->
  num_params gp = p.
Proof.
  intros Hc Hr Hp; unfold num_params, static_cast_unsigned.
  rewrite Hr, N.div_mul by assumption.
  now apply N.mod_small.
Qed.

Lemma parameter_derivatives_exact (gp : GaussianProcess) (p : N) :
  consistent gp ->
  cols (kernel_derivatives gp) <> 0%N ->
  rows (kernel_derivatives gp) = (p * cols (kernel_derivatives gp))%N ->
  (p < 2 ^ 32)%N ->
  GaussianLogLikelihood.GetParameterDerivatives gp
  = Return (map (spec_delta gp) (iota p)).
Proof.
  intros (Hsq & HY & HD) Hc Hr Hp.
  rewrite parameter_derivatives_eq; unfold product.
  rewrite HY, N.eqb_refl; cbn [bind].
  unfold after_dimension_test.
  rewrite (num_params_of_multiple gp p Hc Hr Hp).
  rewrite (proj2 (N.eqb_neq _ _) Hc), Hr, N.eqb_refl; cbn [negb].
  apply mapM_Return; intros k Hk; apply in_iota in Hk.
  rewrite derivative_term_eq; cbn [rows cols coeff]; try congruence.
  - unfold spec_delta, spec_alpha, spec_block; now rewrite HD.
  - rewrite Hr.
    replace (k * cols (kernel_derivatives gp)
             + cols (kernel_derivatives gp))%N
      with ((k + 1) * cols (kernel_derivatives gp))%N by lia.
    apply N.mul_le_mono_r; lia.
Qed.

(** C5 (as amended).  Let n, the column count of D, be positive and shared
    with Y and C, and let D have p n rows with p below 2^32 (the parameter
    count is an [unsigned]).  Then [GetParameterDerivatives] returns the
    vector of length p whose k-th component is
    [0.5 * trace((alpha alpha' - C) D_k)] with [alpha = C Y] and [D_k] the
    k-th n x n block of D. *)
Theorem parameter_derivatives_formula (gp : GaussianProcess) (p : N) :
  consistent gp ->
  cols (kernel_derivatives gp) <> 0%N ->
  rows (kernel_derivatives gp) = (p * cols (kernel_derivatives gp))%N ->
  (p < 2 ^ 32)%N ->
  GaussianLogLikelihood.GetParameterDerivatives gp
  = Return (map (spec_delta gp) (iota p))
  /\ List.length (map (spec_delta gp) (iota p)) = N.to_nat p
  /\ (forall k, (k < p)%N ->
        nth (N.to_nat k) (map (spec_delta gp) (iota p)) (Fin 0)
        = spec_delta gp k).
Proof.
  intros Hn Hc Hr Hp; split; [|split].
  - now apply parameter_derivatives_exact.
  - now rewrite length_map, length_iota.
  - intros k Hk.
    rewrite (nth_indep _ (Fin 0) (spec_delta gp 0))
      by (rewrite length_map, length_iota; lia).
    rewrite map_nth, nth_iota by lia.
    now rewrite N2Nat.id.
Qed.

Lemma scenario_consistent : consistent scenario.
Proof. repeat split. Qed.

Lemma parameter_derivatives_formula_witness :
  GaussianLogLikelihood.GetParameterDerivatives scenario
  = Return [spec_delta scenario 0].
Proof.
  assert (Hc : cols (kernel_derivatives scenario) <> 0%N) by discriminate.
  assert (Hp : (1 < 2 ^ 32)%N) by reflexivity.
  exact (proj1 (parameter_derivatives_formula scenario 1
                  scenario_consistent Hc eq_refl Hp)).
Defined.

(** C5, as stated, fails from 2^32 parameters on: D has 2^32 rows and one
    column, an exact multiple, the quotient cast to [unsigned] is 0, and the
    shape is rejected.  It also fails without a training point: D has no
    column and [D.rows()/D.cols()] divides by zero. *)
Lemma too_many_parameters_are_rejected :
  (rows (kernel_derivatives many_parameters)
   = (2 ^ 32 * cols (kernel_derivatives many_parameters))%N
   /\ consistent many_parameters
   /\ GaussianLogLikelihood.GetParameterDerivatives many_parameters
      = Throw [] wrong_dimension
   /\ fails_with
        (GaussianLogLikelihood.GetParameterDerivatives many_parameters)
        DimensionError)
  /\ (rows (kernel_derivatives no_training_point)
      = (1 * cols (kernel_derivatives no_training_point))%N
      /\ consistent no_training_point
      /\ GaussianLogLikelihood.GetParameterDerivatives no_training_point
         = Undefined).
Proof.
  assert (E : GaussianLogLikelihood.GetParameterDerivatives many_parameters
              = Throw [] wrong_dimension).
  { rewrite parameter_derivatives_eq; unfold product.
    change (cols (core many_parameters) =? rows (labels many_parameters))%N
      with true; cbn [bind].
    unfold after_dimension_test.
    assert (Hn : num_params many_parameters = 0%N) by (vm_compute; reflexivity).
    rewrite Hn; reflexivity. }
  split.
  - split; [reflexivity|]; split; [repeat split|]; split; [exact E|].
    rewrite E; apply fails_with_Throw, kind_dimension.
  - split; [reflexivity|]; split; [repeat split|].
    rewrite parameter_derivatives_eq; reflexivity.
Qed.

(** ** One output column: the Jacobian and the derivative *)

Lemma after_dimension_test_passes {A B : Type} (gp : GaussianProcess)
  (loop : outcome A) (a : A) (loop' : outcome B) :
  after_dimension_test gp loop = Return a ->
  after_dimension_test gp loop' = loop'.
Proof.
  unfold after_dimension_test.
  destruct (cols (kernel_derivatives gp) =? 0)%N; [discriminate|].
  destruct (negb _); [discriminate|trivial].
Qed.

Lemma parameter_derivatives_Return (gp : GaussianProcess) (g : VectorType) :
  GaussianLogLikelihood.GetParameterDerivatives gp = Return g ->
  exists alpha,
    product (core gp) (labels gp) = Return alpha
    /\ mapM (derivative_term alpha (core gp) (kernel_derivatives gp))
         (iota (num_params gp)) = Return g
    /\ forall (B : Type) (loop : outcome B),
         after_dimension_test gp loop = loop.
Proof.
  rewrite parameter_derivatives_eq.
  destruct (product _ _) as [alpha| |]; cbn [bind]; try discriminate.
  intros H; exists alpha; split; [reflexivity|]; split.
  - now apply after_dimension_test_Return in H.
  - intros B loop; eapply after_dimension_test_passes; eassumption.
Qed.

(** With one output column the loop over the columns runs once, on
    [alpha = C * Y.col(0)], which has the coefficients of [C * Y]. *)
Lemma jacobian_rows_single (gp : GaussianProcess) (alpha : MatrixType) :
  cols (labels gp) = 1%N ->
  product (core gp) (labels gp) = Return alpha ->
  jacobian_rows gp
  = (vs <- mapM (derivative_term alpha (core gp) (kernel_derivatives gp))
             (iota (num_params gp)) ;;
     Return (assign_all (fun J p v => set_coeff J 0 p v)
               (iota (num_params gp)) vs (Zero 1 (num_params gp)))).
Proof.
  intros Ht Halpha; unfold jacobian_rows, for_loop.
  rewrite Ht; change (iota 1) with [0%N]; cbn [for_each].
  rewrite bind_Return.
  unfold col; rewrite Ht; change (0 <? 1)%N with true; cbn [bind].
  unfold product in *; cbn [rows cols coeff] in *.
  destruct (cols (core gp) =? rows (labels gp))%N; [|discriminate].
  injection Halpha as <-; cbn [bind].
  erewrite mapM_ext; [reflexivity|].
  intros p _; apply derivative_term_ext; cbn [rows cols coeff];
    [reflexivity|now rewrite Ht|].
  intros i j Hj; assert (j = 0%N) as -> by lia; reflexivity.
Qed.

Section SingleOutput.
Context {limits : numeric_limits.t}.

(** With one output column [GetValueAndJacobian] returns when [operator()]
    and [GetParameterDerivatives] do: the value, and the matrix that has
    received the derivatives in its row 0. *)
Lemma value_and_jacobian_single (gp : GaussianProcess) (v g : VectorType) :
  cols (labels gp) = 1%N ->
  GaussianLogLikelihood.operator gp = Return v ->
  GaussianLogLikelihood.GetParameterDerivatives gp = Return g ->
  GaussianLogLikelihood.GetValueAndJacobian gp
  = Return (v, assign_all (fun J p v => set_coeff J 0 p v)
                 (iota (num_params gp)) g (Zero 1 (num_params gp))).
Proof.
  intros Ht Hv Hg.
  apply log_operator_Return in Hv as (Hs & Hinf & ->).
  apply parameter_derivatives_Return in Hg as (alpha & Ha & Hm & Hpass).
  rewrite value_and_jacobian_eq, Hs, Hinf, Hpass.
  now rewrite (jacobian_rows_single gp alpha Ht Ha), Hm.
Qed.

(** C8.  For one output column, when [GetValueAndJacobian] and
    [GetParameterDerivatives] both return, the Jacobian is the 1 x p matrix
    whose row is the vector of derivatives, component by component (in
    exact arithmetic the two are equal). *)
Theorem jacobian_is_the_derivative (gp : GaussianProcess)
  (v g : VectorType) (J : MatrixType) :
  cols (labels gp) = 1%N ->
  GaussianLogLikelihood.GetValueAndJacobian gp = Return (v, J) ->
  GaussianLogLikelihood.GetParameterDerivatives gp = Return g ->
  rows J = 1%N
  /\ cols J = N.of_nat (List.length g)
  /\ (forall k, (k < List.length g)%nat ->
        coeff J 0 (N.of_nat k) = nth k g (Fin 0))
  /\ to_rows J = [g].
Proof.
  intros Ht HJ Hg.
  assert (Hv : GaussianLogLikelihood.operator gp = Return v).
  { apply value_and_jacobian_Return in HJ as (Hs & Hinf & -> & _).
    now rewrite log_operator_eq, Hs, Hinf. }
  rewrite (value_and_jacobian_single gp v g Ht Hv Hg) in HJ.
  injection HJ as <-.
  apply parameter_derivatives_Return in Hg as (alpha & _ & Hm & _).
  apply mapM_length in Hm; rewrite length_iota in Hm.
  assert (Hnp : num_params gp = N.of_nat (List.length g))
    by (rewrite Hm; now rewrite N2Nat.id).
  destruct (assign_all_rows 0 (iota (num_params gp)) g
              (Zero 1 (num_params gp))) as [Hrows Hcols].
  cbn [rows cols Zero] in Hrows, Hcols.
  assert (Hcoeff : forall k, (k < List.length g)%nat ->
            coeff (assign_all (fun J p v => set_coeff J 0 p v)
                     (iota (num_params gp)) g (Zero 1 (num_params gp)))
              0 (N.of_nat k)
            = nth k g (Fin 0)).
  { intros k Hk.
    rewrite <- (nth_iota (num_params gp) k) by lia.
    apply assign_all_set_coeff;
      [apply NoDup_iota|now rewrite length_iota|rewrite length_iota; lia]. }
  set (J := assign_all (fun J p v => set_coeff J 0 p v)
              (iota (num_params gp)) g (Zero 1 (num_params gp))) in *.
  split; [exact Hrows|]; split; [now rewrite Hcols|].
  split; [exact Hcoeff|].
  unfold to_rows; rewrite Hrows, Hcols, Hnp.
  change (iota 1) with [0%N]; cbn [map].
  apply (f_equal (fun row => [row])).
  transitivity
    (map (fun j => nth (N.to_nat j) g (Fin 0))
       (iota (N.of_nat (List.length g)))); [|apply map_nth_iota].
  apply map_ext_in; intros j Hj; apply in_iota in Hj.
  rewrite <- (N2Nat.id j) at 1.
  apply Hcoeff; lia.
Qed.

End SingleOutput.

Lemma scenario_value :
  @GaussianLogLikelihood.operator x87 scenario
  = Return (@log_value x87 scenario).
Proof.
  apply log_operator_real;
    [exact x87_wf|reflexivity|apply real_scenario_labels
    |apply real_scenario_core|reflexivity].
Qed.

Lemma scenario_derivatives :
  GaussianLogLikelihood.GetParameterDerivatives scenario
  = Return [spec_delta scenario 0].
Proof.
  apply (parameter_derivatives_exact scenario 1);
    [exact scenario_consistent|discriminate|reflexivity|reflexivity].
Qed.

Lemma jacobian_is_the_derivative_witness :
  exists (v g : VectorType) (J : MatrixType),
    @GaussianLogLikelihood.GetValueAndJacobian x87 scenario = Return (v, J)
    /\ GaussianLogLikelihood.GetParameterDerivatives scenario = Return g
    /\ to_rows J = [g].
Proof.
  pose proof (@value_and_jacobian_single x87 scenario _ _ eq_refl
                scenario_value scenario_derivatives) as HJ.
  eexists _, _, _; split; [exact HJ|]; split; [exact scenario_derivatives|].
  exact (proj2 (proj2 (proj2
           (@jacobian_is_the_derivative x87 scenario _ _ _ eq_refl HJ
              scenario_derivatives)))).
Defined.

(** ** The scenario of the specification *)

(** The log-likelihood of the scenario is [-0.5 + 0 - log(2 pi)], and its
    derivative with respect to the one parameter, whose block of D is zero,
    is 0. *)
Example scenario_log_likelihood :
  @GaussianLogLikelihood.operator x87 scenario
  = Return [Fin (- / 2 - ln (2 * PI))].
Proof.
  rewrite scenario_value; f_equal.
  unfold log_value, log_value_with.
  change (determinant scenario) with (Fin 1).
  rewrite (log_penalty_between x87_wf 1 scenario_determinant_in_range).
  rewrite log_constant_eq, ln_1.
  unfold data_fit, quadratic_form, sum_to, iota; simpl.
  do 2 f_equal; lra.
Qed.

Example scenario_derivative_is_zero :
  GaussianLogLikelihood.GetParameterDerivatives scenario = Return [Fin 0].
Proof.
  rewrite scenario_derivatives; do 2 f_equal.
  unfold spec_delta, spec_alpha, spec_block, sum_to, iota; simpl.
  f_equal; lra.
Qed.

(** * Further properties of the three classes *)

(** ** What is thrown, and when *)

Lemma never_throws_bind {A B : Type} (c : outcome A) (k : A -> outcome B) :
  never_throws c -> (forall a, never_throws (k a)) -> never_throws (bind c k).
Proof.
  intros Hc Hk; destruct c as [a|out e|]; simpl.
  - apply Hk.
  - exfalso; exact (Hc out e eq_refl).
  - intros out e; discriminate.
Qed.

Lemma never_throws_Return {A : Type} (a : A) : never_throws (Return a).
Proof. intros out e; discriminate. Qed.

Lemma never_throws_product (a b : MatrixType) : never_throws (product a b).
Proof. unfold product; destruct (_ =? _)%N; intros out e; discriminate. Qed.

Lemma never_throws_difference (a b : MatrixType) :
  never_throws (difference a b).
Proof. unfold difference; destruct (_ && _); intros out e; discriminate. Qed.

Lemma never_throws_block (m : MatrixType) (i j p q : N) :
  never_throws (block m i j p q).
Proof. unfold block; destruct (_ && _); intros out e; discriminate. Qed.

Lemma never_throws_col (m : MatrixType) (j : N) : never_throws (col m j).
Proof. unfold col; destruct (_ <? _)%N; intros out e; discriminate. Qed.

Lemma never_throws_derivative_term (alpha C D : MatrixType) (p : N) :
  never_throws (derivative_term alpha C D p).
Proof.
  unfold derivative_term.
  apply never_throws_bind; [apply never_throws_product|intros aat].
  apply never_throws_bind; [apply never_throws_difference|intros m].
  apply never_throws_bind; [apply never_throws_block|intros Dp].
  apply never_throws_bind; [apply never_throws_product|intros mD].
  apply never_throws_Return.
Qed.

Lemma never_throws_mapM {A B : Type} (g : A -> outcome B) (l : list A) :
  (forall a, never_throws (g a)) -> never_throws (mapM g l).
Proof.
  intros Hg; induction l as [|a l IH]; simpl; [apply never_throws_Return|].
  apply never_throws_bind; [apply Hg|intros b].
  apply never_throws_bind; [exact IH|intros bs; apply never_throws_Return].
Qed.

Lemma never_throws_for_each {S : Type} (l : list N)
  (body : N -> S -> outcome S) (s : S) :
  (forall i s, never_throws (body i s)) -> never_throws (for_each l body s).
Proof.
  intros Hb; revert s; induction l as [|i l IH]; intros s; simpl;
    [apply never_throws_Return|].
  apply never_throws_bind; [apply Hb|exact IH].
Qed.

Lemma never_throws_jacobian_rows (gp : GaussianProcess) :
  never_throws (jacobian_rows gp).
Proof.
  unfold jacobian_rows, for_loop.
  apply never_throws_for_each; intros i J.
  apply never_throws_bind; [apply never_throws_col|intros Yi].
  apply never_throws_bind; [apply never_throws_product|intros alpha].
  apply never_throws_bind; [|intros vs; apply never_throws_Return].
  apply never_throws_mapM; intros p; apply never_throws_derivative_term.
Qed.

Lemma after_dimension_test_Throw {A : Type} (gp : GaussianProcess)
  (loop : outcome A) (out : list diagnostics) (e : exception) :
  never_throws loop ->
  after_dimension_test gp loop = Throw out e ->
  out = [] /\ e = wrong_dimension
  /\ cols (kernel_derivatives gp) <> 0%N
  /\ rows (kernel_derivatives gp)
     <> (num_params gp * cols (kernel_derivatives gp))%N.
Proof.
  intros Hl; unfold after_dimension_test.
  destruct (N.eqb_spec (cols (kernel_derivatives gp)) 0); [discriminate|].
  destruct (N.eqb_spec (rows (kernel_derivatives gp))
              (num_params gp * cols (kernel_derivatives gp))); cbn [negb].
  - intros H; exfalso; exact (Hl out e H).
  - intros [= <- <-]; auto.
Qed.

Lemma wrong_dimension_kind (k : error_kind) :
  has_kind wrong_dimension k -> k = DimensionError.
Proof.
  intros H; inversion H; reflexivity.
Qed.

Lemma likelihood_infinite_kind (k : error_kind) :
  has_kind likelihood_infinite k -> k = NumericalError.
Proof.
  intros H; inversion H; reflexivity.
Qed.

Section ErrorContract.
Context {limits : numeric_limits.t}.

Lemma parameter_derivatives_Throw (gp : GaussianProcess)
  (out : list diagnostics) (e : exception) :
  GaussianLogLikelihood.GetParameterDerivatives gp = Throw out e ->
  out = [] /\ e = wrong_dimension.
Proof.
  rewrite parameter_derivatives_eq.
  destruct (product _ _) as [alpha| |] eqn:E; cbn [bind]; try discriminate.
  - intros H; apply after_dimension_test_Throw in H; [tauto|].
    apply never_throws_mapM; intros p; apply never_throws_derivative_term.
  - exfalso; exact (never_throws_product _ _ _ _ E).
Qed.

Lemma value_and_derivatives_Throw (gp : GaussianProcess)
  (out : list diagnostics) (e : exception) :
  GaussianLogLikelihood.GetValueAndParameterDerivatives gp = Throw out e <->
  shapes_fit gp = true
  /\ ((isinf (sum (log_value gp)) = true
       /\ out = [log_diagnostics gp] /\ e = likelihood_infinite)
      \/ (isinf (sum (log_value gp)) = false
          /\ cols (kernel_derivatives gp) <> 0%N
          /\ rows (kernel_derivatives gp)
             <> (num_params gp * cols (kernel_derivatives gp))%N
          /\ out = [] /\ e = wrong_dimension)).
Proof.
  rewrite value_and_derivatives_eq; unfold shapes_fit, product.
  destruct (rows (labels gp) =? rows (core gp))%N; cbn [andb];
    [|split; [discriminate|intros [? _]; discriminate]].
  destruct (cols (core gp) =? rows (labels gp))%N;
    [|split; [discriminate|intros [? _]; discriminate]].
  destruct (isinf _); cbn [bind].
  - split.
    + intros [= <- <-]; split; [reflexivity|left; auto].
    + intros (_ & [(_ & -> & ->)|(? & _)]); [reflexivity|discriminate].
  - split.
    + intros H; apply after_dimension_test_Throw in H.
      * split; [reflexivity|right; tauto].
      * apply never_throws_bind; [|intros; apply never_throws_Return].
        apply never_throws_mapM; intros p; apply never_throws_derivative_term.
    + intros (_ & [(? & _)|(_ & Hc & Hr & -> & ->)]); [discriminate|].
      unfold after_dimension_test.
      rewrite (proj2 (N.eqb_neq _ _) Hc), (proj2 (N.eqb_neq _ _) Hr).
      reflexivity.
Qed.

Lemma value_and_jacobian_Throw (gp : GaussianProcess)
  (out : list diagnostics) (e : exception) :
  GaussianLogLikelihood.GetValueAndJacobian gp = Throw out e <->
  shapes_fit gp = true
  /\ ((isinf (sum (log_value gp)) = true
       /\ out = [log_diagnostics gp] /\ e = likelihood_infinite)
      \/ (isinf (sum (log_value gp)) = false
          /\ cols (kernel_derivatives gp) <> 0%N
          /\ rows (kernel_derivatives gp)
             <> (num_params gp * cols (kernel_derivatives gp))%N
          /\ out = [] /\ e = wrong_dimension)).
Proof.
  rewrite value_and_jacobian_eq.
  destruct (shapes_fit gp);
    [|split; [discriminate|intros [? _]; discriminate]].
  destruct (isinf _).
  - split.
    + intros [= <- <-]; split; [reflexivity|left; auto].
    + intros (_ & [(_ & -> & ->)|(? & _)]); [reflexivity|discriminate].
  - split.
    + intros H; apply after_dimension_test_Throw in H.
      * split; [reflexivity|right; tauto].
      * apply never_throws_bind; [|intros; apply never_throws_Return].
        apply never_throws_jacobian_rows.
    + intros (_ & [(? & _)|(_ & Hc & Hr & -> & ->)]); [discriminate|].
      unfold after_dimension_test.
      rewrite (proj2 (N.eqb_neq _ _) Hc), (proj2 (N.eqb_neq _ _) Hr).
      reflexivity.
Qed.

(** X1.  The exceptions of [GaussianLogLikelihood].  [operator()] throws only
    "likelihood is infinite", after it has written the data fit, the penalty,
    the constant and the determinant to [std::cout]; [GetParameterDerivatives]
    throws only "wrong dimension of derivative kernel matrix" and writes
    nothing, so that it fails with no other kind of error than a
    DimensionError; the two combined operations throw one of the two. *)
Theorem log_likelihood_exceptions (gp : GaussianProcess) :
  (forall out e,
      GaussianLogLikelihood.operator gp = Throw out e ->
      isinf (sum (log_value gp)) = true
      /\ out = [log_diagnostics gp] /\ e = likelihood_infinite)
  /\ (forall out e,
         GaussianLogLikelihood.GetParameterDerivatives gp = Throw out e ->
         out = [] /\ e = wrong_dimension)
  /\ (forall k,
         fails_with (GaussianLogLikelihood.GetParameterDerivatives gp) k ->
         k = DimensionError)
  /\ (forall out e,
         GaussianLogLikelihood.GetValueAndParameterDerivatives gp
         = Throw out e ->
         (out = [log_diagnostics gp] /\ e = likelihood_infinite)
         \/ (out = [] /\ e = wrong_dimension))
  /\ (forall out e,
         GaussianLogLikelihood.GetValueAndJacobian gp = Throw out e ->
         (out = [log_diagnostics gp] /\ e = likelihood_infinite)
         \/ (out = [] /\ e = wrong_dimension)).
Proof.
  split; [|split; [|split; [|split]]].
  - intros out e; rewrite log_operator_eq.
    destruct (shapes_fit gp); [|discriminate].
    destruct (isinf _); [|discriminate].
    intros [= <- <-]; auto.
  - apply parameter_derivatives_Throw.
  - intros k (out & e & H & Hk).
    apply parameter_derivatives_Throw in H as [_ ->].
    now apply wrong_dimension_kind.
  - intros out e H; apply value_and_derivatives_Throw in H.
    destruct H as (_ & [(_ & ? & ?)|(_ & _ & _ & ? & ?)]); auto.
  - intros out e H; apply value_and_jacobian_Throw in H.
    destruct H as (_ & [(_ & ? & ?)|(_ & _ & _ & ? & ?)]); auto.
Qed.

(** X2.  [GetValueAndJacobian] and [GetValueAndParameterDerivatives] throw
    the same exceptions on the same models; what [operator()] throws both of
    them throw, and the value either of them returns is the one [operator()]
    returns. *)
Theorem combined_operations_agree (gp : GaussianProcess) :
  (forall out e,
      GaussianLogLikelihood.GetValueAndJacobian gp = Throw out e <->
      GaussianLogLikelihood.GetValueAndParameterDerivatives gp = Throw out e)
  /\ (forall out e,
         GaussianLogLikelihood.operator gp = Throw out e ->
         GaussianLogLikelihood.GetValueAndJacobian gp = Throw out e)
  /\ (forall v J,
         GaussianLogLikelihood.GetValueAndJacobian gp = Return (v, J) ->
         GaussianLogLikelihood.operator gp = Return v)
  /\ (forall v g,
         GaussianLogLikelihood.GetValueAndParameterDerivatives gp
         = Return (v, g) ->
         GaussianLogLikelihood.operator gp = Return v).
Proof.
  split; [|split; [|split]].
  - intros out e.
    rewrite value_and_jacobian_Throw, value_and_derivatives_Throw; tauto.
  - intros out e; rewrite log_operator_eq, value_and_jacobian_eq.
    destruct (shapes_fit gp); [|discriminate].
    destruct (isinf _); [intros [= <- <-]; reflexivity|discriminate].
  - intros v J H; apply value_and_jacobian_Return in H as (Hs & Hinf & -> & _).
    now rewrite log_operator_eq, Hs, Hinf.
  - intros v g H; apply value_and_derivatives_Return in H as (Hs & Hinf & ->).
    now rewrite log_operator_eq, Hs, Hinf.
Qed.

(** X3.  [GaussianLikelihood::operator()] throws exactly when [Y' C Y] is
    well formed and the determinant is below [-epsilon]; it then throws the
    message with the determinant and writes nothing.  It is undefined exactly
    when the shapes of Y and C do not fit. *)
Theorem plain_likelihood_exceptions (gp : GaussianProcess) :
  (forall out e,
      GaussianLikelihood.operator gp = Throw out e <->
      shapes_fit gp = true
      /\ fltb (determinant gp) (fneg (Fin numeric_limits.epsilon)) = true
      /\ out = [] /\ e = determinant_negative (determinant gp))
  /\ (GaussianLikelihood.operator gp = Undefined <-> shapes_fit gp = false)
  /\ (forall k, fails_with (GaussianLikelihood.operator gp) k ->
                k = NumericalError).
Proof.
  split; [|split].
  - intros out e; rewrite plain_operator_eq.
    destruct (shapes_fit gp);
      [|split; [discriminate|intros [? _]; discriminate]].
    destruct (fltb _ _).
    + split; [intros [= <- <-]; auto|intros (_ & _ & -> & ->); reflexivity].
    + destruct (fleb _ _);
        (split; [discriminate|intros (_ & ? & _); discriminate]).
  - rewrite plain_operator_eq.
    destruct (shapes_fit gp); [|tauto].
    destruct (fltb _ _); [split; discriminate|].
    destruct (fleb _ _); split; discriminate.
  - intros k (out & e & H & Hk); revert H; rewrite plain_operator_eq.
    destruct (shapes_fit gp); [|discriminate].
    destruct (fltb _ _); [|destruct (fleb _ _); discriminate].
    intros [= <- <-].
    inversion Hk; reflexivity.
Qed.

End ErrorContract.

Lemma infinite_labels_jacobian_throws :
  @GaussianLogLikelihood.GetValueAndJacobian x87 infinite_labels
  = Throw [@log_diagnostics x87 infinite_labels] likelihood_infinite.
Proof.
  rewrite value_and_jacobian_eq, infinite_labels_sum; reflexivity.
Qed.

Lemma log_likelihood_exceptions_witness :
  @GaussianLogLikelihood.GetValueAndJacobian x87 infinite_labels
  = Throw [@log_diagnostics x87 infinite_labels] likelihood_infinite
  /\ (([@log_diagnostics x87 infinite_labels]
       = [@log_diagnostics x87 infinite_labels]
       /\ likelihood_infinite = likelihood_infinite)
      \/ ([@log_diagnostics x87 infinite_labels] = []
          /\ likelihood_infinite = wrong_dimension)).
Proof.
  split; [exact infinite_labels_jacobian_throws|].
  exact (proj2 (proj2 (proj2 (proj2
           (@log_likelihood_exceptions x87 infinite_labels)))) _ _
           infinite_labels_jacobian_throws).
Defined.

Lemma combined_operations_agree_witness :
  @GaussianLogLikelihood.GetValueAndParameterDerivatives x87 infinite_labels
  = Throw [@log_diagnostics x87 infinite_labels] likelihood_infinite.
Proof.
  apply (proj1 (@combined_operations_agree x87 infinite_labels)).
  exact infinite_labels_jacobian_throws.
Defined.

Lemma plain_likelihood_exceptions_witness :
  @GaussianLikelihood.operator x87 negative_determinant
  = Throw [] (determinant_negative (determinant negative_determinant)).
Proof.
  apply (proj1 (@plain_likelihood_exceptions x87 negative_determinant)).
  repeat split; exact scenario_minus_one_below_epsilon.
Defined.

(** ** A determinant that is not a number *)

Lemma fold_fadd_NaN (l : list fp) : fold_left fadd l NaN = NaN.
Proof. induction l as [|x l IH]; simpl; [reflexivity|exact IH]. Qed.

Lemma sum_repeat_NaN (n : nat) : isinf (sum (repeat NaN n)) = false.
Proof.
  destruct n as [|n]; [reflexivity|].
  unfold sum; simpl; now rewrite fold_fadd_NaN.
Qed.

Lemma length_data_fit (gp : GaussianProcess) :
  List.length (data_fit gp) = N.to_nat (cols (labels gp)).
Proof. unfold data_fit; now rewrite length_map, length_iota. Qed.

Section NotANumber.
Context {limits : numeric_limits.t}.

(** X4.  A determinant that is NaN passes every test on the determinant:
    both [operator()] return, without an error, a vector whose t components
    are all NaN. *)
Theorem nan_determinant_gives_nan (gp : GaussianProcess) :
  determinant gp = NaN ->
  shapes_fit gp = true ->
  GaussianLikelihood.operator gp
  = Return (repeat NaN (N.to_nat (cols (labels gp))))
  /\ GaussianLogLikelihood.operator gp
     = Return (repeat NaN (N.to_nat (cols (labels gp)))).
Proof.
  intros Hd Hs; split.
  - rewrite plain_operator_eq, Hs, Hd; cbn [fltb fleb].
    unfold plain_value, plain_penalty; cbn [fsqrt fdiv].
    rewrite map_map.
    replace (map _ (data_fit gp)) with (map (fun _ : fp => NaN) (data_fit gp)).
    + now rewrite map_const, length_data_fit.
    + apply map_ext; intros x; destruct (fexp x); reflexivity.
  - assert (E : log_value gp = repeat NaN (N.to_nat (cols (labels gp)))).
    { unfold log_value, log_value_with, log_penalty; rewrite Hd.
      cbn [fleb fltb flog fmul fadd].
      replace (map _ (data_fit gp))
        with (map (fun _ : fp => NaN) (data_fit gp)).
      - now rewrite map_const, length_data_fit.
      - apply map_ext; intros x; destruct x; reflexivity. }
    rewrite log_operator_eq, Hs, E.
    now rewrite sum_repeat_NaN.
Qed.

End NotANumber.

Lemma nan_determinant_gives_nan_witness :
  @GaussianLikelihood.operator x87 nan_determinant = Return [NaN]
  /\ @GaussianLogLikelihood.operator x87 nan_determinant = Return [NaN].
Proof.
  exact (@nan_determinant_gives_nan x87 nan_determinant eq_refl eq_refl).
Defined.

(** ** The test on the shape of D, exactly *)

Lemma after_dimension_test_shape {A : Type} (gp : GaussianProcess)
  (loop : outcome A) (a : A) :
  after_dimension_test gp loop = Return a ->
  loop = Return a
  /\ cols (kernel_derivatives gp) <> 0%N
  /\ rows (kernel_derivatives gp)
     = (num_params gp * cols (kernel_derivatives gp))%N.
Proof.
  unfold after_dimension_test.
  destruct (N.eqb_spec (cols (kernel_derivatives gp)) 0); [discriminate|].
  destruct (N.eqb_spec (rows (kernel_derivatives gp))
              (num_params gp * cols (kernel_derivatives gp))); cbn [negb];
    [auto|discriminate].
Qed.

Lemma num_params_lt (gp : GaussianProcess) : (num_params gp < 2 ^ 32)%N.
Proof.
  unfold num_params, static_cast_unsigned; apply N.mod_lt; discriminate.
Qed.

(** X5.  When [C * Y] is well formed and D has a column,
    [GetParameterDerivatives] throws the error on the shape of D exactly when
    the row count of D is not p times its column count for any p below 2^32;
    otherwise it throws nothing. *)
Theorem dimension_error_exactly (gp : GaussianProcess) :
  cols (core gp) = rows (labels gp) ->
  cols (kernel_derivatives gp) <> 0%N ->
  (GaussianLogLikelihood.GetParameterDerivatives gp
   = Throw [] wrong_dimension
   <-> ~ exists p, (p < 2 ^ 32)%N
                   /\ rows (kernel_derivatives gp)
                      = (p * cols (kernel_derivatives gp))%N)
  /\ (fails_with (GaussianLogLikelihood.GetParameterDerivatives gp)
        DimensionError
      <-> ~ exists p, (p < 2 ^ 32)%N
                      /\ rows (kernel_derivatives gp)
                         = (p * cols (kernel_derivatives gp))%N).
Proof.
  intros Hfit Hc.
  assert (Hiff : GaussianLogLikelihood.GetParameterDerivatives gp
                 = Throw [] wrong_dimension
                 <-> ~ exists p, (p < 2 ^ 32)%N
                                 /\ rows (kernel_derivatives gp)
                                    = (p * cols (kernel_derivatives gp))%N).
  { rewrite parameter_derivatives_eq; unfold product.
    rewrite (proj2 (N.eqb_eq _ _) Hfit); cbn [bind].
    unfold after_dimension_test.
    rewrite (proj2 (N.eqb_neq _ _) Hc).
    destruct (N.eqb_spec (rows (kernel_derivatives gp))
                (num_params gp * cols (kernel_derivatives gp)))
      as [E|E]; cbn [negb].
    - split.
      + intros H; exfalso; revert H.
        apply never_throws_mapM; intros p; apply never_throws_derivative_term.
      + intros H; exfalso; apply H.
        exists (num_params gp); split; [apply num_params_lt|exact E].
    - split; [|reflexivity].
      intros _ (p & Hp & Hr); apply E.
      now rewrite (num_params_of_multiple gp p Hc Hr Hp). }
  split; [exact Hiff|].
  rewrite <- Hiff; split.
  - intros (out & e & H & Hk).
    destruct (parameter_derivatives_Throw gp out e H) as [-> ->]; exact H.
  - intros H; rewrite H; apply fails_with_Throw, kind_dimension.
Qed.

Lemma dimension_error_exactly_witness :
  GaussianLogLikelihood.GetParameterDerivatives odd_derivatives
  = Throw [] wrong_dimension.
Proof.
  assert (Hc : cols (kernel_derivatives odd_derivatives) <> 0%N)
    by discriminate.
  apply (proj1 (dimension_error_exactly odd_derivatives eq_refl Hc)).
  intros (p & _ & Hp); cbn in Hp; lia.
Defined.

(** ** The shapes of the results *)

Lemma for_each_invariant {S : Type} (P : S -> Prop) (l : list N)
  (body : N -> S -> outcome S) (s s' : S) :
  (forall i s s', body i s = Return s' -> P s -> P s') ->
  for_each l body s = Return s' -> P s -> P s'.
Proof.
  intros Hb; revert s; induction l as [|i l IH]; intros s; simpl.
  - now intros [= <-].
  - destruct (body i s) as [s1| |] eqn:E; simpl; try discriminate.
    intros H Hs; apply (IH s1 H); now apply (Hb i s s1).
Qed.

Lemma jacobian_rows_shape (gp : GaussianProcess) (J : MatrixType) :
  jacobian_rows gp = Return J ->
  rows J = cols (labels gp) /\ cols J = num_params gp.
Proof.
  unfold jacobian_rows, for_loop; intros H.
  apply (for_each_invariant
           (fun J => rows J = cols (labels gp) /\ cols J = num_params gp))
    in H; [exact H| |split; reflexivity].
  clear; intros i J J'.
  destruct (col _ _) as [Yi| |]; cbn [bind]; try discriminate.
  destruct (product _ _) as [alpha| |]; cbn [bind]; try discriminate.
  destruct (mapM _ _) as [vs| |]; cbn [bind]; try discriminate.
  intros [= <-] [Hr Hc].
  destruct (assign_all_rows i (iota (num_params gp)) vs J) as [-> ->].
  now split.
Qed.

Section Shapes.
Context {limits : numeric_limits.t}.

(** X6.  What the operations return has the shape of the model: one value
    per column of Y, one derivative per parameter, and a Jacobian with one
    row per column of Y and one column per parameter, where the number of
    parameters [num_params] times the column count of D is the row count
    of D. *)
Theorem results_have_the_shape_of_the_model (gp : GaussianProcess) :
  (forall v, GaussianLikelihood.operator gp = Return v ->
             List.length v = N.to_nat (cols (labels gp)))
  /\ (forall v, GaussianLogLikelihood.operator gp = Return v ->
                List.length v = N.to_nat (cols (labels gp)))
  /\ (forall g,
         GaussianLogLikelihood.GetParameterDerivatives gp = Return g ->
         List.length g = N.to_nat (num_params gp)
         /\ rows (kernel_derivatives gp)
            = (num_params gp * cols (kernel_derivatives gp))%N)
  /\ (forall v g,
         GaussianLogLikelihood.GetValueAndParameterDerivatives gp
         = Return (v, g) ->
         List.length v = N.to_nat (cols (labels gp))
         /\ List.length g = N.to_nat (num_params gp)
         /\ rows (kernel_derivatives gp)
            = (num_params gp * cols (kernel_derivatives gp))%N)
  /\ (forall v J,
         GaussianLogLikelihood.GetValueAndJacobian gp = Return (v, J) ->
         List.length v = N.to_nat (cols (labels gp))
         /\ rows J = cols (labels gp)
         /\ cols J = num_params gp
         /\ rows (kernel_derivatives gp)
            = (num_params gp * cols (kernel_derivatives gp))%N).
Proof.
  assert (Hlog : List.length (log_value gp) = N.to_nat (cols (labels gp)))
    by (unfold log_value, log_value_with;
        now rewrite length_map, length_data_fit).
  split; [|split; [|split; [|split]]].
  - intros v; rewrite plain_operator_eq.
    destruct (shapes_fit gp); [|discriminate].
    destruct (fltb _ _); [discriminate|].
    destruct (fleb _ _); intros [= <-]; unfold plain_value;
      now rewrite !length_map, length_data_fit.
  - intros v H; apply log_operator_Return in H as (_ & _ & ->); exact Hlog.
  - intros g; rewrite parameter_derivatives_eq.
    destruct (product _ _) as [alpha| |]; cbn [bind]; try discriminate.
    intros H; apply after_dimension_test_shape in H as (H & _ & Hr).
    apply mapM_length in H; rewrite length_iota in H; now split.
  - intros v g; rewrite value_and_derivatives_eq.
    destruct (shapes_fit gp); [|discriminate].
    destruct (isinf _); [discriminate|].
    destruct (product _ _) as [alpha| |]; cbn [bind]; try discriminate.
    intros H; apply after_dimension_test_shape in H as (H & _ & Hr).
    destruct (mapM _ _) as [vs| |] eqn:E; cbn [bind] in H; try discriminate.
    injection H as <- <-.
    apply mapM_length in E; rewrite length_iota in E; auto.
  - intros v J; rewrite value_and_jacobian_eq.
    destruct (shapes_fit gp); [|discriminate].
    destruct (isinf _); [discriminate|].
    intros H; apply after_dimension_test_shape in H as (H & _ & Hr).
    destruct (jacobian_rows gp) as [J'| |] eqn:E; cbn [bind] in H;
      try discriminate.
    injection H as <- <-.
    apply jacobian_rows_shape in E as [HrJ HcJ]; auto.
Qed.

(** X7.  With one output column, the value [GaussianLogLikelihood]'s
    [operator()] returns is never +Inf or -Inf (it is a real number or NaN):
    the test on the sum is then a test on the value. *)
Theorem single_output_is_not_infinite (gp : GaussianProcess)
  (v : VectorType) :
  cols (labels gp) = 1%N ->
  GaussianLogLikelihood.operator gp = Return v ->
  exists x, v = [x] /\ isinf x = false.
Proof.
  intros Ht H; apply log_operator_Return in H as (_ & Hinf & ->).
  revert Hinf; unfold log_value, log_value_with, data_fit.
  rewrite Ht; change (iota 1) with [0%N]; cbn [map].
  intros Hinf; eexists; split; [reflexivity|].
  revert Hinf; unfold sum; cbn [fold_left].
  generalize (fadd (fmul (Fin (-0.5)) (quadratic_form gp 0))
                (fadd (log_penalty (determinant gp))
                   (log_constant (rows (core gp))))).
  intros x; destruct x; simpl; trivial.
Qed.

End Shapes.

Lemma results_have_the_shape_of_the_model_witness :
  exists g,
    GaussianLogLikelihood.GetParameterDerivatives scenario = Return g
    /\ List.length g = N.to_nat (num_params scenario).
Proof.
  exists [spec_delta scenario 0]; split; [exact scenario_derivatives|].
  exact (proj1 (proj1 (proj2 (proj2
           (@results_have_the_shape_of_the_model x87 scenario))) _
           scenario_derivatives)).
Defined.

Lemma single_output_is_not_infinite_witness :
  exists x, @log_value x87 scenario = [x] /\ isinf x = false.
Proof.
  exact (@single_output_is_not_infinite x87 scenario _ eq_refl scenario_value).
Defined.

(** ** The clamps on the determinant *)

Lemma ln_le (x y : R) : 0 < x -> x <= y -> ln x <= ln y.
Proof.
  intros Hx [H|H]; [left; now apply ln_increasing|right; now rewrite H].
Qed.

Section Clamps.
Context {limits : numeric_limits.t}.
Hypothesis limits_wf : numeric_limits.wf limits.

Lemma clamped_determinant_range (d : fp) :
  isnan d = false ->
  numeric_limits.min <= clamped_determinant d <= numeric_limits.max.
Proof.
  destruct limits_wf as (Hmin & Heps & Heps1 & Hmax).
  destruct d as [x| | |]; simpl; try discriminate; intros _; try lra.
  destruct (Rle_dec x numeric_limits.min) as [H|H].
  - rewrite Rleb_le by assumption; lra.
  - rewrite Rleb_gt by lra.
    destruct (Rlt_dec numeric_limits.max x) as [H'|H'].
    + rewrite Rltb_lt by assumption; lra.
    + rewrite Rltb_ge by lra; lra.
Qed.

Lemma log_penalty_clamped (d : fp) :
  isnan d = false ->
  log_penalty d = Fin (- / 2 * ln (clamped_determinant d)).
Proof.
  destruct limits_wf as (Hmin & Heps & Heps1 & Hmax).
  destruct d as [x| | |]; try discriminate; intros _.
  - unfold log_penalty; simpl.
    destruct (Rle_dec x numeric_limits.min) as [H|H].
    + rewrite Rleb_le by assumption.
      now apply log_penalty_lower_eq.
    + rewrite Rleb_gt by lra.
      destruct (Rlt_dec numeric_limits.max x) as [H'|H'].
      * rewrite Rltb_lt by assumption.
        now apply log_penalty_upper_eq.
      * rewrite Rltb_ge by lra.
        now rewrite Rltb_lt, literal_m0_5 by lra.
  - unfold log_penalty; cbn [fleb fltb clamped_determinant].
    now apply log_penalty_upper_eq.
  - unfold log_penalty; cbn [fleb clamped_determinant].
    now apply log_penalty_lower_eq.
Qed.

Lemma clamped_determinant_monotone (d1 d2 : fp) :
  fleb d1 d2 = true -> clamped_determinant d1 <= clamped_determinant d2.
Proof.
  destruct limits_wf as (Hmin & Heps & Heps1 & Hmax).
  intros Hle.
  assert (H1 : isnan d1 = false) by (destruct d1, d2; trivial; discriminate).
  assert (H2 : isnan d2 = false) by (destruct d1, d2; trivial; discriminate).
  pose proof (clamped_determinant_range d1 H1) as R1.
  pose proof (clamped_determinant_range d2 H2) as R2.
  destruct d1 as [x| | |], d2 as [y| | |]; try discriminate;
    cbn [clamped_determinant] in *; try lra.
  simpl in Hle; apply Rleb_true in Hle.
  destruct (Rle_dec x numeric_limits.min) as [Hx|Hx];
    [rewrite (Rleb_le x) in * by assumption; lra|].
  rewrite (Rleb_gt x) in * by lra.
  rewrite (Rleb_gt y) in * by lra.
  destruct (Rlt_dec numeric_limits.max y) as [Hy|Hy];
    [rewrite (Rltb_lt _ y) in * by assumption; lra|].
  rewrite (Rltb_ge _ y) in * by lra.
  rewrite (Rltb_ge _ x) in * by lra.
  exact Hle.
Qed.

(** X8.  [GaussianLogLikelihood::operator()] clamps the determinant into
    [min, max] before it takes the logarithm: for every determinant that is
    a number, negative, zero or infinite, the penalty is
    [-0.5 log(clamped determinant)], a real number between [-0.5 log(max)]
    and [-0.5 log(min)]; this penalty is what the operator adds to the data
    fit. *)
Theorem log_likelihood_is_clamped (gp : GaussianProcess) :
  isnan (determinant gp) = false ->
  exists c,
    log_penalty (determinant gp) = Fin c
    /\ c = - / 2 * ln (clamped_determinant (determinant gp))
    /\ numeric_limits.min <= clamped_determinant (determinant gp)
       <= numeric_limits.max
    /\ - / 2 * ln numeric_limits.max <= c <= - / 2 * ln numeric_limits.min
    /\ GaussianLogLikelihood.operator gp
       = (if shapes_fit gp then
            if isinf (sum (log_value_with (Fin c) gp))
            then Throw [log_diagnostics gp] likelihood_infinite
            else Return (log_value_with (Fin c) gp)
          else Undefined).
Proof.
  intros Hd.
  destruct limits_wf as (Hmin & Heps & Heps1 & Hmax).
  pose proof (clamped_determinant_range (determinant gp) Hd) as [Hlo Hhi].
  exists (- / 2 * ln (clamped_determinant (determinant gp))).
  split; [now apply log_penalty_clamped|].
  split; [reflexivity|].
  split; [split; assumption|].
  split.
  - assert (ln numeric_limits.min
            <= ln (clamped_determinant (determinant gp)))
      by (apply ln_le; assumption).
    assert (ln (clamped_determinant (determinant gp))
            <= ln numeric_limits.max)
      by (apply ln_le; [lra|assumption]).
    lra.
  - rewrite log_operator_eq; unfold log_value.
    now rewrite log_penalty_clamped.
Qed.

(** X9.  An infinite determinant shows the two clamps apart:
    [GaussianLikelihood::operator()] has no upper clamp, its penalty
    [1/sqrt(d)] is 0, and each component it returns is 0 or NaN, while
    [GaussianLogLikelihood::operator()] takes the penalty [-0.5 log(max)],
    a real number. *)
Theorem infinite_determinant_values (gp : GaussianProcess) :
  determinant gp = PInf ->
  shapes_fit gp = true ->
  plain_penalty (determinant gp) = Fin 0
  /\ GaussianLikelihood.operator gp = Return (plain_value (Fin 0) gp)
  /\ Forall (fun x => x = Fin 0 \/ x = NaN) (plain_value (Fin 0) gp)
  /\ log_penalty (determinant gp) = Fin (- / 2 * ln numeric_limits.max)
  /\ GaussianLogLikelihood.operator gp
     = (if isinf (sum (log_value_with log_penalty_upper gp))
        then Throw [log_diagnostics gp] likelihood_infinite
        else Return (log_value_with log_penalty_upper gp)).
Proof.
  intros Hd Hs.
  assert (Hcp : plain_penalty PInf = Fin 0) by reflexivity.
  assert (E : log_value gp = log_value_with log_penalty_upper gp)
    by (unfold log_value, log_penalty; now rewrite Hd).
  rewrite Hd; split; [exact Hcp|]; split; [|split; [|split]].
  - rewrite plain_operator_eq, Hs, Hd; cbn [fltb fleb fneg].
    now rewrite Hcp.
  - unfold plain_value; rewrite map_map.
    apply Forall_forall; intros y Hy; apply in_map_iff in Hy.
    destruct Hy as (x & <- & _); rewrite plain_constant_eq.
    destruct x as [e| | |]; simpl.
    + left; f_equal; ring.
    + rewrite Reqb_refl; now right.
    + left; f_equal; ring.
    + now right.
  - unfold log_penalty; cbn [fleb fltb].
    now apply log_penalty_upper_eq.
  - now rewrite log_operator_eq, Hs, E.
Qed.

(** X14.  The penalty of the log-likelihood never grows with the
    determinant: for two determinants [d1 <= d2] (numbers, finite or not) the
    penalty for [d2] is at most the penalty for [d1], the clamps at [min] and
    [max] keep the order; and when [operator()] returns for both, each
    component for [d2] is at most the component for [d1], or both are NaN. *)
Theorem log_likelihood_is_antitone (gp : GaussianProcess) (d1 d2 : fp) :
  fleb d1 d2 = true ->
  (exists c1 c2,
      log_penalty d1 = Fin c1 /\ log_penalty d2 = Fin c2 /\ c2 <= c1)
  /\ (forall v1 v2,
         GaussianLogLikelihood.operator (with_determinant d1 gp) = Return v1 ->
         GaussianLogLikelihood.operator (with_determinant d2 gp) = Return v2 ->
         Forall2 (fun x1 x2 =>
                    fleb x2 x1 = true
                    \/ (isnan x1 = true /\ isnan x2 = true))
           v1 v2).
Proof.
  intros Hle.
  assert (H1 : isnan d1 = false) by (destruct d1, d2; trivial; discriminate).
  assert (H2 : isnan d2 = false) by (destruct d1, d2; trivial; discriminate).
  pose proof (clamped_determinant_monotone d1 d2 Hle) as Hmono.
  pose proof (clamped_determinant_range d1 H1) as R1.
  assert (Hln : ln (clamped_determinant d1) <= ln (clamped_determinant d2))
    by (apply ln_le; [destruct limits_wf; lra|assumption]).
  split.
  - exists (- / 2 * ln (clamped_determinant d1)),
           (- / 2 * ln (clamped_determinant d2)).
    split; [now apply log_penalty_clamped|].
    split; [now apply log_penalty_clamped|lra].
  - intros v1 v2 Hv1 Hv2.
    apply log_operator_Return in Hv1 as (_ & _ & ->).
    apply log_operator_Return in Hv2 as (_ & _ & ->).
    unfold log_value, log_value_with.
    change (data_fit (with_determinant d1 gp)) with (data_fit gp).
    change (data_fit (with_determinant d2 gp)) with (data_fit gp).
    change (core (with_determinant d1 gp)) with (core gp).
    change (core (with_determinant d2 gp)) with (core gp).
    change (determinant (with_determinant d1 gp)) with d1.
    change (determinant (with_determinant d2 gp)) with d2.
    rewrite !log_penalty_clamped, log_constant_eq by assumption.
    induction (data_fit gp) as [|x l IH]; cbn [map]; constructor; [|exact IH].
    destruct x as [e| | |]; simpl.
    + left; apply Rleb_le; lra.
    + now left.
    + now left.
    + now right.
Qed.

End Clamps.

Lemma log_likelihood_is_clamped_witness :
  exists c,
    @log_penalty x87 (determinant infinite_determinant) = Fin c
    /\ - / 2 * ln x87_max <= c <= - / 2 * ln x87_min.
Proof.
  destruct (@log_likelihood_is_clamped x87 x87_wf infinite_determinant eq_refl)
    as (c & Hc & _ & _ & Hb & _).
  exists c; split; [exact Hc|exact Hb].
Defined.

Lemma infinite_determinant_values_witness :
  @GaussianLikelihood.operator x87 infinite_determinant
  = Return (plain_value (Fin 0) infinite_determinant)
  /\ Forall (fun x => x = Fin 0 \/ x = NaN)
       (plain_value (Fin 0) infinite_determinant).
Proof.
  destruct (@infinite_determinant_values x87 x87_wf infinite_determinant
              eq_refl eq_refl) as (_ & H1 & H2 & _).
  split; [exact H1|exact H2].
Defined.

Lemma log_likelihood_is_antitone_witness :
  exists c1 c2,
    @log_penalty x87 (Fin 1) = Fin c1 /\ @log_penalty x87 PInf = Fin c2
    /\ c2 <= c1.
Proof.
  exact (proj1 (@log_likelihood_is_antitone x87 x87_wf scenario (Fin 1) PInf
                  eq_refl)).
Defined.

(** ** The Jacobian, for any number of output columns *)

Lemma fadd_0_l (x : fp) : fadd (Fin 0) x = x.
Proof. destruct x; simpl; try reflexivity; f_equal; lra. Qed.

Lemma sum_to_1 (f : N -> fp) : sum_to 1 f = f 0%N.
Proof. unfold sum_to; change (iota 1) with [0%N]; simpl; apply fadd_0_l. Qed.

Lemma assign_all_other_row (i : N) (l : list N) (vs : list fp)
  (J : MatrixType) (a b : N) :
  a <> i ->
  coeff (assign_all (fun J p v => set_coeff J i p v) l vs J) a b = coeff J a b.
Proof.
  intros Ha; unfold assign_all; revert vs J; induction l as [|p l IH];
    intros [|v vs] J; simpl; try reflexivity.
  rewrite IH; simpl.
  now rewrite (proj2 (N.eqb_neq _ _) Ha).
Qed.

Lemma assign_all_row (i np : N) (h : N -> fp) (J : MatrixType) (k : N) :
  (k < np)%N ->
  coeff (assign_all (fun J p v => set_coeff J i p v) (iota np)
           (map h (iota np)) J) i k
  = h k.
Proof.
  intros Hk.
  rewrite <- (N2Nat.id k) at 1.
  rewrite <- (nth_iota np (N.to_nat k)) by lia.
  rewrite assign_all_set_coeff;
    [|apply NoDup_iota|now rewrite length_map|rewrite length_iota; lia].
  rewrite (nth_indep _ (Fin 0) (h 0%N))
    by (rewrite length_map, length_iota; lia).
  rewrite map_nth, nth_iota by lia.
  now rewrite N2Nat.id.
Qed.

(** A loop over rows, each of which stores the terms [h i 0 .. h i (np-1)]
    in row [i]. *)
Lemma for_each_rows (h : N -> N -> fp) (np : N) (l : list N)
  (body : N -> MatrixType -> outcome MatrixType) (J0 : MatrixType) :
  (forall i J, In i l ->
     body i J
     = Return (assign_all (fun J p v => set_coeff J i p v) (iota np)
                 (map (h i) (iota np)) J)) ->
  NoDup l ->
  exists J,
    for_each l body J0 = Return J
    /\ rows J = rows J0 /\ cols J = cols J0
    /\ (forall i k, In i l -> (k < np)%N -> coeff J i k = h i k)
    /\ (forall a b, ~ In a l -> coeff J a b = coeff J0 a b).
Proof.
  revert J0; induction l as [|i l IH]; intros J0 Hbody Hnd.
  - exists J0; simpl; repeat split; try reflexivity; intros; tauto.
  - inversion Hnd as [|? ? Hi Hnd']; subst.
    simpl; rewrite Hbody by now left.
    cbn [bind].
    set (J1 := assign_all (fun J p v => set_coeff J i p v) (iota np)
                 (map (h i) (iota np)) J0).
    destruct (IH J1) as (J & HJ & Hr & Hc & Hin & Hout);
      [intros; apply Hbody; now right|assumption|].
    destruct (assign_all_rows i (iota np) (map (h i) (iota np)) J0)
      as [Hr1 Hc1].
    exists J; split; [exact HJ|].
    split; [now rewrite Hr|]; split; [now rewrite Hc|]; split.
    + intros i' k [<-|Hi'] Hk; [|now apply Hin].
      rewrite Hout by assumption.
      now apply assign_all_row.
    + intros a b Hab; rewrite Hout by (intros H; apply Hab; now right).
      apply assign_all_other_row; intros ->; apply Hab; now left.
Qed.

(** One term of the Jacobian, when the shapes fit. *)
Lemma jacobian_term (gp : GaussianProcess) (i k : N) :
  consistent gp ->
  (k * cols (kernel_derivatives gp) + cols (kernel_derivatives gp)
   <= rows (kernel_derivatives gp))%N ->
  derivative_term
    (Matrix (rows (core gp)) 1
       (fun a _ =>
          sum_to (cols (core gp))
            (fun j => fmul (coeff (core gp) a j) (coeff (labels gp) j i))))
    (core gp) (kernel_derivatives gp) k
  = Return (spec_jacobian gp i k).
Proof.
  intros (Hsq & HY & HD) Hk.
  rewrite derivative_term_eq; cbn [rows cols coeff]; try congruence.
  unfold spec_jacobian, spec_alpha, spec_block; rewrite HD.
  do 2 f_equal.
  apply sum_to_ext; intros a _.
  apply sum_to_ext; intros b _.
  now rewrite sum_to_1.
Qed.

Lemma block_in_range (gp : GaussianProcess) (p k : N) :
  rows (kernel_derivatives gp) = (p * cols (kernel_derivatives gp))%N ->
  (k < p)%N ->
  (k * cols (kernel_derivatives gp) + cols (kernel_derivatives gp)
   <= rows (kernel_derivatives gp))%N.
Proof.
  intros Hr Hk; rewrite Hr.
  replace (k * cols (kernel_derivatives gp)
           + cols (kernel_derivatives gp))%N
    with ((k + 1) * cols (kernel_derivatives gp))%N by lia.
  apply N.mul_le_mono_r; lia.
Qed.

Lemma jacobian_rows_exact (gp : GaussianProcess) (p : N) :
  consistent gp ->
  cols (kernel_derivatives gp) <> 0%N ->
  rows (kernel_derivatives gp) = (p * cols (kernel_derivatives gp))%N ->
  (p < 2 ^ 32)%N ->
  exists J,
    jacobian_rows gp = Return J
    /\ rows J = cols (labels gp) /\ cols J = p
    /\ forall i k, (i < cols (labels gp))%N -> (k < p)%N ->
                   coeff J i k = spec_jacobian gp i k.
Proof.
  intros Hn Hc Hr Hp.
  unfold jacobian_rows, for_loop.
  rewrite (num_params_of_multiple gp p Hc Hr Hp).
  destruct (for_each_rows (spec_jacobian gp) p (iota (cols (labels gp)))
              (fun i jacobian =>
                 Yi <- col (labels gp) i ;;
                 alpha <- product (core gp) Yi ;;
                 vs <- mapM (derivative_term alpha (core gp)
                               (kernel_derivatives gp)) (iota p) ;;
                 Return (assign_all (fun J p v => set_coeff J i p v)
                           (iota p) vs jacobian))
              (Zero (cols (labels gp)) p))
    as (J & HJ & Hrows & Hcols & Hin & _).
  - intros i J Hi; apply in_iota in Hi.
    unfold col; rewrite (proj2 (N.ltb_lt _ _) Hi); cbn [bind].
    unfold product; cbn [rows cols coeff].
    destruct Hn as (Hsq & HY & HD).
    rewrite HY, N.eqb_refl; cbn [bind].
    rewrite (mapM_Return _ (spec_jacobian gp i)); [reflexivity|].
    intros k Hk; apply in_iota in Hk.
    apply jacobian_term; [now repeat split|].
    now apply (block_in_range gp p).
  - apply NoDup_iota.
  - exists J; split; [exact HJ|]; split; [exact Hrows|]; split; [exact Hcols|].
    intros i k Hi Hk; apply Hin; [now apply in_iota|assumption].
Qed.

Lemma value_and_jacobian_exact {limits : numeric_limits.t}
  (gp : GaussianProcess) (p : N) (v : VectorType) :
  consistent gp ->
  cols (kernel_derivatives gp) <> 0%N ->
  rows (kernel_derivatives gp) = (p * cols (kernel_derivatives gp))%N ->
  (p < 2 ^ 32)%N ->
  GaussianLogLikelihood.operator gp = Return v ->
  exists J,
    GaussianLogLikelihood.GetValueAndJacobian gp = Return (v, J)
    /\ rows J = cols (labels gp) /\ cols J = p
    /\ forall i k, (i < cols (labels gp))%N -> (k < p)%N ->
                   coeff J i k = spec_jacobian gp i k.
Proof.
  intros Hn Hc Hr Hp Hv.
  apply log_operator_Return in Hv as (Hs & Hinf & ->).
  destruct (jacobian_rows_exact gp p Hn Hc Hr Hp) as (J & HJ & HJs).
  exists J; split; [|exact HJs].
  rewrite value_and_jacobian_eq, Hs, Hinf.
  unfold after_dimension_test.
  rewrite (num_params_of_multiple gp p Hc Hr Hp).
  rewrite (proj2 (N.eqb_neq _ _) Hc), Hr, N.eqb_refl; cbn [negb].
  now rewrite HJ.
Qed.

Section Jacobian.
Context {limits : numeric_limits.t}.

(** X10.  For any number t of output columns: when n is positive and shared
    by Y, C and D, D has p n rows with p below 2^32, and [operator()] returns
    the value, [GetValueAndJacobian] returns the value and the t x p matrix
    whose entry (i, k) is [0.5 * trace((alpha_i alpha_i' - C) D_k)] with
    [alpha_i = C * Y.col(i)]. *)
Theorem jacobian_formula (gp : GaussianProcess) (p : N) (v : VectorType) :
  consistent gp ->
  cols (kernel_derivatives gp) <> 0%N ->
  rows (kernel_derivatives gp) = (p * cols (kernel_derivatives gp))%N ->
  (p < 2 ^ 32)%N ->
  GaussianLogLikelihood.operator gp = Return v ->
  exists J,
    GaussianLogLikelihood.GetValueAndJacobian gp = Return (v, J)
    /\ rows J = cols (labels gp) /\ cols J = p
    /\ forall i k, (i < cols (labels gp))%N -> (k < p)%N ->
                   coeff J i k = spec_jacobian gp i k.
Proof. apply value_and_jacobian_exact. Qed.

End Jacobian.

Lemma two_outputs_consistent : consistent two_outputs.
Proof. repeat split. Qed.

Lemma real_two_outputs :
  real_matrix (labels two_outputs) /\ real_matrix (core two_outputs)
  /\ real_matrix (kernel_derivatives two_outputs).
Proof.
  repeat split; apply real_of_rows; repeat constructor; apply finite_Fin.
Qed.

Lemma two_outputs_value :
  @GaussianLogLikelihood.operator x87 two_outputs
  = Return (@log_value x87 two_outputs).
Proof.
  apply log_operator_real;
    [exact x87_wf|reflexivity|apply real_two_outputs
    |apply real_two_outputs|reflexivity].
Qed.

Lemma jacobian_formula_witness :
  exists J,
    @GaussianLogLikelihood.GetValueAndJacobian x87 two_outputs
    = Return (@log_value x87 two_outputs, J)
    /\ rows J = 2%N /\ cols J = 2%N
    /\ coeff J 1 0 = spec_jacobian two_outputs 1 0.
Proof.
  assert (Hc : cols (kernel_derivatives two_outputs) <> 0%N) by discriminate.
  assert (Hp : (2 < 2 ^ 32)%N) by reflexivity.
  destruct (@jacobian_formula x87 two_outputs 2 _ two_outputs_consistent Hc
              eq_refl Hp two_outputs_value) as (J & HJ & Hr & Hcol & Hcoeff).
  exists J; split; [exact HJ|]; split; [exact Hr|]; split; [exact Hcol|].
  apply Hcoeff; reflexivity.
Defined.

(** ** Sums of real numbers *)

Lemma fold_Rplus_acc (l : list R) (a : R) :
  fold_left Rplus l a = a + fold_left Rplus l 0.
Proof.
  revert a; induction l as [|x l IH]; intros a; simpl; [lra|].
  rewrite (IH (a + x)), (IH (0 + x)); lra.
Qed.

Lemma fold_Rplus_cons (f : N -> R) (i : N) (l : list N) :
  fold_left Rplus (map f (i :: l)) 0
  = f i + fold_left Rplus (map f l) 0.
Proof. simpl; rewrite fold_Rplus_acc; lra. Qed.

Lemma fold_Rplus_ext (f g : N -> R) (l : list N) :
  (forall i, In i l -> f i = g i) ->
  fold_left Rplus (map f l) 0 = fold_left Rplus (map g l) 0.
Proof. intros H; f_equal; now apply map_ext_in. Qed.

Lemma fold_Rplus_plus (f g : N -> R) (l : list N) :
  fold_left Rplus (map (fun i => f i + g i) l) 0
  = fold_left Rplus (map f l) 0 + fold_left Rplus (map g l) 0.
Proof.
  induction l as [|i l IH]; [simpl; lra|].
  rewrite !fold_Rplus_cons, IH; lra.
Qed.

Lemma fold_Rplus_scal (c : R) (f : N -> R) (l : list N) :
  fold_left Rplus (map (fun i => c * f i) l) 0
  = c * fold_left Rplus (map f l) 0.
Proof.
  induction l as [|i l IH]; [simpl; lra|].
  rewrite !fold_Rplus_cons, IH; lra.
Qed.

Lemma fold_Rplus_const (c : R) (l : list N) :
  fold_left Rplus (map (fun _ => c) l) 0 = INR (List.length l) * c.
Proof.
  induction l as [|i l IH]; [simpl; lra|].
  rewrite fold_Rplus_cons, IH.
  change (List.length (i :: l)) with (S (List.length l)).
  rewrite S_INR; lra.
Qed.

Lemma fold_Rplus_swap (f : N -> N -> R) (l m : list N) :
  fold_left Rplus (map (fun i => fold_left Rplus (map (f i) m) 0) l) 0
  = fold_left Rplus
      (map (fun j => fold_left Rplus (map (fun i => f i j) l) 0) m) 0.
Proof.
  induction l as [|i l IH].
  - simpl; symmetry.
    rewrite (fold_Rplus_const 0 m); lra.
  - rewrite fold_Rplus_cons, IH, <- fold_Rplus_plus.
    apply fold_Rplus_ext; intros j _.
    now rewrite fold_Rplus_cons.
Qed.

Lemma rsum_ext (n : N) (f g : N -> R) :
  (forall i, (i < n)%N -> f i = g i) -> rsum n f = rsum n g.
Proof.
  intros H; apply fold_Rplus_ext; intros i Hi; apply H, in_iota, Hi.
Qed.

Lemma rsum_plus (n : N) (f g : N -> R) :
  rsum n (fun i => f i + g i) = rsum n f + rsum n g.
Proof. apply fold_Rplus_plus. Qed.

Lemma rsum_scal (n : N) (c : R) (f : N -> R) :
  rsum n (fun i => c * f i) = c * rsum n f.
Proof. apply fold_Rplus_scal. Qed.

Lemma rsum_const (n : N) (c : R) :
  rsum n (fun _ => c) = IZR (Z.of_N n) * c.
Proof.
  unfold rsum; rewrite fold_Rplus_const, length_iota.
  rewrite INR_IZR_INZ; do 2 f_equal; lia.
Qed.

Lemma rsum_swap (n m : N) (f : N -> N -> R) :
  rsum n (fun i => rsum m (f i)) = rsum m (fun j => rsum n (fun i => f i j)).
Proof. apply fold_Rplus_swap. Qed.

Lemma fold_fadd_Fin (f : N -> fp) (g : N -> R) (l : list N) (a : R) :
  (forall i, In i l -> f i = Fin (g i)) ->
  fold_left fadd (map f l) (Fin a) = Fin (fold_left Rplus (map g l) a).
Proof.
  revert a; induction l as [|i l IH]; intros a H; simpl; [reflexivity|].
  rewrite (H i) by now left.
  apply IH; intros; apply H; now right.
Qed.

Lemma sum_to_Fin (n : N) (f : N -> fp) (g : N -> R) :
  (forall i, (i < n)%N -> f i = Fin (g i)) -> sum_to n f = Fin (rsum n g).
Proof.
  intros H; apply fold_fadd_Fin; intros i Hi; apply H, in_iota, Hi.
Qed.

Lemma real_coeff (m : MatrixType) (i j : N) :
  real_matrix m -> coeff m i j = Fin (to_R (coeff m i j)).
Proof. intros H; destruct (H i j) as [r ->]; reflexivity. Qed.

Lemma rsum_mult_r (n : N) (f : N -> R) (d : R) :
  rsum n f * d = rsum n (fun c => f c * d).
Proof.
  rewrite Rmult_comm, <- rsum_scal.
  apply rsum_ext; intros c _; ring.
Qed.

Lemma rsum_minus (n : N) (f g : N -> R) :
  rsum n (fun i => f i - g i) = rsum n f - rsum n g.
Proof.
  rewrite (rsum_ext _ _ (fun i => f i + -1 * g i)) by (intros; ring).
  rewrite rsum_plus, rsum_scal; ring.
Qed.

Lemma rsum2_minus (n m : N) (f g h : N -> N -> R) :
  rsum n (fun a => rsum m (fun b => (f a b - g a b) * h a b))
  = rsum n (fun a => rsum m (fun b => f a b * h a b))
    - rsum n (fun a => rsum m (fun b => g a b * h a b)).
Proof.
  rewrite <- rsum_minus; apply rsum_ext; intros a _.
  rewrite <- rsum_minus; apply rsum_ext; intros b _; ring.
Qed.

(** ** The derivatives in real numbers *)

Section RealDerivatives.
Variable gp : GaussianProcess.
Hypothesis real_labels : real_matrix (labels gp).
Hypothesis real_core : real_matrix (core gp).
Hypothesis real_derivatives : real_matrix (kernel_derivatives gp).

Lemma spec_alpha_real (a c : N) :
  spec_alpha gp a c = Fin (real_alpha gp a c).
Proof.
  unfold spec_alpha, real_alpha; apply sum_to_Fin; intros j _.
  now rewrite (real_coeff (core gp)), (real_coeff (labels gp)).
Qed.

Lemma spec_block_real (k b a : N) :
  spec_block gp k b a = Fin (to_R (spec_block gp k b a)).
Proof. unfold spec_block; now apply real_coeff. Qed.

Lemma spec_delta_real (k : N) :
  spec_delta gp k
  = Fin (/ 2 * rsum (cols (kernel_derivatives gp))
                 (fun a =>
                    rsum (cols (kernel_derivatives gp))
                      (fun b =>
                         (rsum (cols (labels gp))
                            (fun c => real_alpha gp a c * real_alpha gp b c)
                          - to_R (coeff (core gp) a b))
                         * to_R (spec_block gp k b a)))).
Proof.
  unfold spec_delta; cbv zeta.
  erewrite sum_to_Fin; [simpl; now rewrite literal_0_5|].
  intros a _; apply sum_to_Fin; intros b _.
  erewrite sum_to_Fin;
    [|intros c _; rewrite !spec_alpha_real; reflexivity].
  now rewrite (real_coeff (core gp) a b), spec_block_real.
Qed.

Lemma spec_jacobian_real (i k : N) :
  spec_jacobian gp i k
  = Fin (/ 2 * rsum (cols (kernel_derivatives gp))
                 (fun a =>
                    rsum (cols (kernel_derivatives gp))
                      (fun b =>
                         (real_alpha gp a i * real_alpha gp b i
                          - to_R (coeff (core gp) a b))
                         * to_R (spec_block gp k b a)))).
Proof.
  unfold spec_jacobian; cbv zeta.
  erewrite sum_to_Fin; [simpl; now rewrite literal_0_5|].
  intros a _; apply sum_to_Fin; intros b _.
  now rewrite !spec_alpha_real, (real_coeff (core gp) a b), spec_block_real.
Qed.

(** The derivative is the sum of the rows of the Jacobian, plus t - 1 times
    half the trace of [C D_k]. *)
Lemma delta_is_sum_of_jacobian (k : N) :
  to_R (spec_delta gp k)
  = rsum (cols (labels gp)) (fun i => to_R (spec_jacobian gp i k))
    + (IZR (Z.of_N (cols (labels gp))) - 1) * half_trace_core_block gp k.
Proof.
  pose (n := cols (kernel_derivatives gp)).
  pose (P := fun i : N =>
               rsum n (fun a =>
                 rsum n (fun b =>
                   real_alpha gp a i * real_alpha gp b i
                   * to_R (spec_block gp k b a)))).
  pose (S := rsum n (fun a =>
               rsum n (fun b =>
                 to_R (coeff (core gp) a b) * to_R (spec_block gp k b a)))).
  assert (HJ : forall i, to_R (spec_jacobian gp i k) = / 2 * P i + - (/ 2 * S)).
  { intros i; rewrite spec_jacobian_real; cbn [to_R].
    rewrite rsum2_minus; fold n; fold (P i); fold S; ring. }
  assert (HD : to_R (spec_delta gp k)
               = / 2 * rsum (cols (labels gp)) P + - (/ 2 * S)).
  { rewrite spec_delta_real; cbn [to_R].
    rewrite rsum2_minus; fold n; fold S.
    replace (rsum n (fun a => rsum n (fun b =>
               rsum (cols (labels gp))
                 (fun c => real_alpha gp a c * real_alpha gp b c)
               * to_R (spec_block gp k b a))))
      with (rsum (cols (labels gp)) P); [ring|].
    unfold P; rewrite rsum_swap.
    apply rsum_ext; intros a _.
    rewrite rsum_swap.
    apply rsum_ext; intros b _.
    now rewrite rsum_mult_r. }
  rewrite (rsum_ext _ (fun i => to_R (spec_jacobian gp i k))
             (fun i => / 2 * P i + - (/ 2 * S)))
    by (intros; apply HJ).
  rewrite HD, rsum_plus, rsum_scal, rsum_const.
  unfold half_trace_core_block; cbv zeta; fold n; fold S; ring.
Qed.

End RealDerivatives.

Lemma parameter_derivatives_shape (gp : GaussianProcess) (g : VectorType) :
  GaussianLogLikelihood.GetParameterDerivatives gp = Return g ->
  cols (kernel_derivatives gp) <> 0%N
  /\ rows (kernel_derivatives gp)
     = (num_params gp * cols (kernel_derivatives gp))%N.
Proof.
  rewrite parameter_derivatives_eq.
  destruct (product _ _) as [alpha| |]; cbn [bind]; try discriminate.
  intros H; now apply after_dimension_test_shape in H.
Qed.

Lemma parameter_derivatives_values (gp : GaussianProcess) (g : VectorType)
  (k : N) :
  consistent gp ->
  GaussianLogLikelihood.GetParameterDerivatives gp = Return g ->
  (k < num_params gp)%N ->
  nth (N.to_nat k) g NaN = spec_delta gp k.
Proof.
  intros Hn Hg Hk.
  destruct (parameter_derivatives_shape gp g Hg) as [Hc Hr].
  rewrite (parameter_derivatives_exact gp (num_params gp) Hn Hc Hr
             (num_params_lt gp)) in Hg.
  injection Hg as <-.
  rewrite (nth_indep _ NaN (spec_delta gp 0))
    by (rewrite length_map, length_iota; lia).
  rewrite map_nth, nth_iota by lia.
  now rewrite N2Nat.id.
Qed.

Lemma jacobian_values (gp : GaussianProcess) (J : MatrixType) (i k : N) :
  consistent gp ->
  cols (kernel_derivatives gp) <> 0%N ->
  rows (kernel_derivatives gp)
  = (num_params gp * cols (kernel_derivatives gp))%N ->
  jacobian_rows gp = Return J ->
  (i < cols (labels gp))%N -> (k < num_params gp)%N ->
  coeff J i k = spec_jacobian gp i k.
Proof.
  intros Hn Hc Hr HJ Hi Hk.
  destruct (jacobian_rows_exact gp (num_params gp) Hn Hc Hr
              (num_params_lt gp)) as (J' & HJ' & _ & _ & Hcoeff).
  rewrite HJ in HJ'; injection HJ' as <-.
  now apply Hcoeff.
Qed.

Lemma value_and_jacobian_shape {limits : numeric_limits.t}
  (gp : GaussianProcess) (v : VectorType) (J : MatrixType) :
  GaussianLogLikelihood.GetValueAndJacobian gp = Return (v, J) ->
  jacobian_rows gp = Return J
  /\ cols (kernel_derivatives gp) <> 0%N
  /\ rows (kernel_derivatives gp)
     = (num_params gp * cols (kernel_derivatives gp))%N.
Proof.
  rewrite value_and_jacobian_eq.
  destruct (shapes_fit gp); [|discriminate].
  destruct (isinf _); [discriminate|].
  intros H; apply after_dimension_test_shape in H as (H & Hc & Hr).
  destruct (jacobian_rows gp); cbn [bind] in H; try discriminate.
  injection H as _ <-; auto.
Qed.





Section Aggregate.
Context {limits : numeric_limits.t}.

(** X11.  How the derivative and the Jacobian relate for t output columns,
    on real Y, C and D with a shared n, when the results are real numbers:
    the k-th derivative is the sum of column k of the Jacobian plus (t - 1)
    times [0.5 * trace(C D_k)], as real numbers.  For t = 1 the two agree;
    for more columns the derivative is not the sum of the per-output
    derivatives. *)
Theorem derivative_and_jacobian (gp : GaussianProcess)
  (v g : VectorType) (J : MatrixType) (k : N) :
  consistent gp ->
  real_matrix (labels gp) -> real_matrix (core gp) ->
  real_matrix (kernel_derivatives gp) ->
  GaussianLogLikelihood.GetValueAndJacobian gp = Return (v, J) ->
  GaussianLogLikelihood.GetParameterDerivatives gp = Return g ->
  (k < num_params gp)%N ->
  finite (nth (N.to_nat k) g NaN) ->
  (forall i, (i < cols (labels gp))%N -> finite (coeff J i k)) ->
  to_R (nth (N.to_nat k) g NaN)
  = rsum (cols (labels gp)) (fun i => to_R (coeff J i k))
    + (IZR (Z.of_N (cols (labels gp))) - 1) * half_trace_core_block gp k.
Proof.
  intros Hn HY HC HD HJ Hg Hk _ _.
  apply value_and_jacobian_shape in HJ as (HJ & Hc & Hr).
  rewrite (parameter_derivatives_values gp g k Hn Hg Hk).
  rewrite (rsum_ext _ (fun i => to_R (coeff J i k))
             (fun i => to_R (spec_jacobian gp i k)))
    by (intros i Hi; now rewrite (jacobian_values gp J i k Hn Hc Hr HJ Hi Hk)).
  now rewrite <- (delta_is_sum_of_jacobian gp HY HC HD k).
Qed.


End Aggregate.

Lemma two_outputs_derivatives :
  GaussianLogLikelihood.GetParameterDerivatives two_outputs
  = Return (map (spec_delta two_outputs) (iota 2)).
Proof.
  apply (parameter_derivatives_exact two_outputs 2);
    [exact two_outputs_consistent|discriminate|reflexivity|reflexivity].
Qed.

Lemma two_outputs_num_params : num_params two_outputs = 2%N.
Proof. reflexivity. Qed.

Lemma finite_spec_jacobian (gp : GaussianProcess) (i k : N) :
  real_matrix (labels gp) -> real_matrix (core gp) ->
  real_matrix (kernel_derivatives gp) ->
  finite (spec_jacobian gp i k).
Proof.
  intros HY HC HD; rewrite (spec_jacobian_real gp HY HC HD); apply finite_Fin.
Qed.

Lemma derivative_and_jacobian_witness :
  exists J,
    @GaussianLogLikelihood.GetValueAndJacobian x87 two_outputs
    = Return (@log_value x87 two_outputs, J)
    /\ to_R (nth 0 (map (spec_delta two_outputs) (iota 2)) NaN)
       = rsum 2 (fun i => to_R (coeff J i 0))
         + (IZR 2 - 1) * half_trace_core_block two_outputs 0.
Proof.
  assert (Hc : cols (kernel_derivatives two_outputs) <> 0%N) by discriminate.
  assert (Hp : (2 < 2 ^ 32)%N) by reflexivity.
  destruct (@value_and_jacobian_exact x87 two_outputs 2 _
              two_outputs_consistent Hc eq_refl Hp two_outputs_value)
    as (J & HJ & _ & _ & Hcoeff).
  destruct real_two_outputs as (HY & HC & HD).
  exists J; split; [exact HJ|].
  apply (@derivative_and_jacobian x87 two_outputs _ _ J 0
           two_outputs_consistent HY HC HD HJ two_outputs_derivatives).
  - reflexivity.
  - change (finite (spec_delta two_outputs 0)).
    rewrite (spec_delta_real two_outputs HY HC HD); apply finite_Fin.
  - intros i Hi; rewrite (Hcoeff i 0%N Hi eq_refl).
    now apply finite_spec_jacobian.
Defined.



(** ** What [GaussianLogLikelihood] never does *)

Section Overridden.
Context {limits : numeric_limits.t}.

(** X13.  [GaussianLogLikelihood] overrides the four operations: no call
    through the interface on such an object fails with the "not implemented"
    error of [Likelihood]. *)
Theorem log_likelihood_is_implemented (gp : GaussianProcess)
  (op : operation) (name : string) :
  declares LogLikelihood op = true
  /\ ~ fails_with (call LogLikelihood op gp) (NotImplemented name).
Proof.
  split; [destruct op; reflexivity|].
  intros (out & e & H & Hk).
  assert (He : e = likelihood_infinite \/ e = wrong_dimension).
  { destruct op; cbn [call] in H.
    - revert H; rewrite log_operator_eq.
      destruct (shapes_fit gp); [|discriminate].
      destruct (isinf _); [|discriminate].
      intros [= _ <-]; now left.
    - apply parameter_derivatives_Throw in H as [_ ->]; now right.
    - apply value_and_derivatives_Throw in H.
      destruct H as (_ & [(_ & _ & ->)|(_ & _ & _ & _ & ->)]); auto.
    - apply value_and_jacobian_Throw in H.
      destruct H as (_ & [(_ & _ & ->)|(_ & _ & _ & _ & ->)]); auto. }
  destruct He as [-> | ->].
  - apply likelihood_infinite_kind in Hk; discriminate.
  - apply wrong_dimension_kind in Hk; discriminate.
Qed.

End Overridden.
